(** * Patient task checklist of the hospice dashboard (public/app.js)

    A shallow embedding of the task tree, the progress aggregation, the
    mutation operations and the archive transitions of [public/app.js],
    together with the properties the specification states about them. *)

From Stdlib Require Import ZArith Floats Uint63 Ascii String.
From stdpp Require Import gmap strings list pretty.

Local Open Scope Z_scope.
Local Open Scope string_scope.

(** ** JavaScript values

    A string of the model is a sequence of code units below 256; the
    literals of the source are all in that range. *)

Module JS.

(** White space of [String.prototype.trim] and of the regular expression
    class [\s], restricted to code units below 256: tab, line feed,
    vertical tab, form feed, carriage return, space and no-break space. *)
Definition isWhiteSpace (c : ascii) : bool :=
  let n := nat_of_ascii c in
  ((9 <=? n)%nat && (n <=? 13)%nat) || (n =? 32)%nat || (n =? 160)%nat.

Fixpoint trimStart (s : string) : string :=
  match s with
  | String c s' => if isWhiteSpace c then trimStart s' else s
  | EmptyString => EmptyString
  end.

Fixpoint trimEnd (s : string) : string :=
  match s with
  | String c s' =>
      match trimEnd s' with
      | EmptyString => if isWhiteSpace c then EmptyString else String c EmptyString
      | r => String c r
      end
  | EmptyString => EmptyString
  end.

Definition trim (s : string) : string := trimEnd (trimStart s).

(** [String.prototype.toLowerCase] on the letters A to Z; other code units
    of the model are left as they are. *)
Definition lowerChar (c : ascii) : ascii :=
  let n := nat_of_ascii c in
  if ((65 <=? n)%nat && (n <=? 90)%nat) then ascii_of_nat (n + 32) else c.

Fixpoint toLowerCase (s : string) : string :=
  match s with
  | String c s' => String (lowerChar c) (toLowerCase s')
  | EmptyString => EmptyString
  end.

Fixpoint startsWith (s p : string) : bool :=
  match p, s with
  | EmptyString, _ => true
  | String a p', String b s' => Ascii.eqb a b && startsWith s' p'
  | String _ _, EmptyString => false
  end.

(** [s.includes(sub)] *)
Fixpoint includes (s sub : string) : bool :=
  startsWith s sub ||
  match s with
  | String _ s' => includes s' sub
  | EmptyString => false
  end.

(** [s.replace(/\s+/g, '-')]: every maximal run of white space becomes
    one dash; [inRun] tells that the run's dash is already written. *)
Fixpoint replaceSpacesFrom (inRun : bool) (s : string) : string :=
  match s with
  | String c s' =>
      if isWhiteSpace c
      then (if inRun then replaceSpacesFrom true s'
            else String "-" (replaceSpacesFrom true s'))
      else String c (replaceSpacesFrom false s')
  | EmptyString => EmptyString
  end.

Definition replaceSpaces (s : string) : string := replaceSpacesFrom false s.

(** A JavaScript number that holds a count, as a binary64 float. *)
Definition toNumber (n : nat) : float :=
  PrimFloat.of_uint63 (Uint63.of_Z (Z.of_nat n)).

(** [Math.round]: the integer nearest to [x], a tie going up.  A finite
    float is [m * 2^e] for integers [m] and [e], so the rounding is exact
    integer arithmetic. NaN and the infinities, which no call of the
    model produces, are mapped to 0. *)
Definition Math_round (x : float) : Z :=
  match Prim2SF x with
  | S754_finite sign m e =>
      let n := if sign then Z.neg m else Z.pos m in
      if (0 <=? e)%Z then n * 2 ^ e
      else (2 * n + 2 ^ (- e)) / 2 ^ (- e + 1)
  | _ => 0
  end.

End JS.

(** ** The task tree

    A sub-subtask is a leaf: a check box, or a free-text field when its
    [type] is ['input'].  The fields [type] and [value] may be absent. *)

Record SubSubtask := mkSubSubtask {
  ss_name : string;
  ss_type : option string;
  ss_value : option string;
  ss_complete : bool
}.

Record Subtask := mkSubtask {
  st_name : string;
  st_complete : bool;
  st_subSubtasks : option (list SubSubtask);
  st_note : option string
}.

Record Task := mkTask {
  t_id : string;
  t_name : string;
  t_subtasks : list Subtask
}.

Definition checkbox (name : string) : SubSubtask :=
  mkSubSubtask name None None false.

Definition textInput (name : string) : SubSubtask :=
  mkSubSubtask name (Some "input") (Some "") false.

Definition plain (name : string) : Subtask :=
  mkSubtask name false None None.

Definition group (name : string) (subSubtasks : list SubSubtask) : Subtask :=
  mkSubtask name false (Some subSubtasks) None.

(** The note of the prescription subtask; its text holds two double
    quotes (code unit 34). *)
Definition doseNote : string :=
  "Dose Type: ${patient.doseLevel || "
    +:+ String (ascii_of_nat 34) "Not specified"
    +:+ String (ascii_of_nat 34) "}".

(** [initializePatientTasks()] (app.js:2545-2683): a fresh copy of the
    template of eleven tasks. *)
Definition initializePatientTasks : list Task :=
  [ mkTask "wr" "Send Adobe Forms"
      [ group "Written Request" [ checkbox "Completed by Patient" ];
        plain "Payment Schedule Form" ];
    mkTask "invoice" "Quickbooks Invoice"
      [ plain "Sent Invoice";
        group "Payment Received"
          [ checkbox "Paid via Quickbooks"; checkbox "Paid via Check" ] ];
    mkTask "records" "Medical Records"
      [ group "Request Medical Records"
          [ textInput "Hospice/Doctor Name";
            textInput "Request Method (Email/Doximity)" ];
        plain "Medical Records Received" ];
    mkTask "visit1" "Visit 1"
      [ group "Scheduled" [ textInput "Visit 1 Date" ];
        plain "Complete" ];
    mkTask "visit2" "Visit 2"
      [ group "Scheduled" [ textInput "Visit 2 Date" ];
        plain "Complete" ];
    mkTask "attending" "Attending Form"
      [ plain "Started"; plain "Complete"; plain "In Emails Drafts" ];
    mkTask "consulting" "Consulting Form"
      [ group "Received" [ textInput "CP Name" ] ];
    mkTask "rxnt" "RXNT"
      [ plain "Patient Information Inputted";
        mkSubtask "Prescription" false
          (Some [ checkbox "Pending"; checkbox "Sent" ])
          (Some doseNote) ];
    mkTask "pharmacy" "Pharmacy Coordination"
      [ plain "Email Drafted"; plain "Email Sent" ];
    mkTask "ingestion" "Ingestion"
      [ group "Ingestion Date" [ mkSubSubtask "Date" (Some "input") None false ];
        plain "Medication Received by Patient";
        plain "Medication Taken by Patient" ];
    mkTask "followup" "Follow up Form"
      [ plain "Completed"; plain "Sent to EOLOA" ] ].

(** ** Progress calculation (app.js:2863-2935) *)

(** [array.find(s => s.name === name)] on subtasks and on sub-subtasks. *)
Definition findSubtask (name : string) (l : list Subtask) : option Subtask :=
  List.find (fun s => String.eqb (st_name s) name) l.

Definition findSubSubtask (name : string) (l : list SubSubtask) : option SubSubtask :=
  List.find (fun s => String.eqb (ss_name s) name) l.

(** [task.subtasks.find(s => s.name === 'Sent Invoice')?.complete || false] *)
Definition sentInvoice (task : Task) : bool :=
  match findSubtask "Sent Invoice" (t_subtasks task) with
  | Some s => st_complete s
  | None => false
  end.

(** [paymentReceived?.subSubtasks?.find(s => s.name === name)?.complete || false] *)
Definition paidVia (name : string) (task : Task) : bool :=
  match findSubtask "Payment Received" (t_subtasks task) with
  | Some paymentReceived =>
      match st_subSubtasks paymentReceived with
      | Some subSubtasks =>
          match findSubSubtask name subSubtasks with
          | Some s => ss_complete s
          | None => false
          end
      | None => false
      end
  | None => false
  end.

Definition paidViaQuickbooks : Task -> bool := paidVia "Paid via Quickbooks".
Definition paidViaCheck : Task -> bool := paidVia "Paid via Check".

(** The inner loop over the sub-subtasks: the flag starts true and is
    cleared by every incomplete leaf. *)
Definition allSubSubtasksComplete (subSubtasks : list SubSubtask) : bool :=
  fold_left (fun all subSubtask => if negb (ss_complete subSubtask) then false else all)
            subSubtasks true.

(** [subtask.subSubtasks && subtask.subSubtasks.length > 0] *)
Definition hasSubSubtasks (subtask : Subtask) : bool :=
  match st_subSubtasks subtask with
  | Some l => (0 <? length l)%nat
  | None => false
  end.

(** The counters of the loops are pairs [(totalItems, completedItems)]. *)
Definition Counters : Type := nat * nat.

(** Body of [task.subtasks.forEach] in the standard branch. *)
Definition countSubtask (acc : Counters) (subtask : Subtask) : Counters :=
  let '(totalItems, completedItems) := acc in
  let totalItems := S totalItems in
  if hasSubSubtasks subtask then
    if allSubSubtasksComplete (default [] (st_subSubtasks subtask))
    then (totalItems, S completedItems)
    else (totalItems, completedItems)
  else
    if st_complete subtask then (totalItems, S completedItems)
    else (totalItems, completedItems).

(** Body of [tasks.forEach] in [calculateProgress]. *)
Definition countTask (acc : Counters) (task : Task) : Counters :=
  if String.eqb (t_id task) "invoice" then
    let '(totalItems, completedItems) := acc in
    let totalItems := (totalItems + length (t_subtasks task))%nat in
    if sentInvoice task then
      let completedItems := S completedItems in
      if paidViaQuickbooks task || paidViaCheck task
      then (totalItems, S completedItems)
      else (totalItems, completedItems)
    else (totalItems, completedItems)
  else
    fold_left countSubtask (t_subtasks task) acc.

Definition countItems (tasks : list Task) : Counters :=
  fold_left countTask tasks (0%nat, 0%nat).

(** [totalItems > 0 ? Math.round((completedItems / totalItems) * 100) : 0],
    in binary64 arithmetic. *)
Definition percentage (c : Counters) : Z :=
  let '(totalItems, completedItems) := c in
  if (0 <? totalItems)%nat
  then JS.Math_round (JS.toNumber completedItems / JS.toNumber totalItems * JS.toNumber 100)%float
  else 0.

(** [calculateProgress(patientId)] reads [window.taskCompletionData]; a
    patient without a stored tree has progress 0. *)
Definition calculateProgress (taskCompletionData : gmap string (list Task))
    (patientId : string) : Z :=
  match taskCompletionData !! patientId with
  | None => 0
  | Some tasks => percentage (countItems tasks)
  end.

(** ** The browser state

    [window.taskCompletionData] is the in-memory map; the three
    [localStorage] entries hold the parsed collections; a card is the part
    of the rendered timeline the mutations write to; notices are the
    messages shown to the user; timers are the callbacks handed to
    [setTimeout], with their delay in milliseconds. *)

Abbreviation Patient := (gmap string string).

Inductive Status := NotStarted | Partial | Complete.

Record Card := mkCard {
  card_items : list Status;
  card_progress : Z
}.

Inductive Callback :=
  | AutoArchivePatient (patientId : string)
  | LoadPatientTimelines
  | LoadArchivedPatients.

Inductive Notice :=
  | Notification (message kind : string)
  | StatusLine (message kind : string).

Record State := mkState {
  taskCompletionData : gmap string (list Task);
  activePatients : list Patient;
  archivedPatients : list Patient;
  savedTaskCompletionData : gmap string (list Task);
  cards : gmap string Card;
  notices : list Notice;
  timers : list (nat * Callback)
}.

Definition setTaskCompletionData (m : gmap string (list Task)) (s : State) : State :=
  mkState m (activePatients s) (archivedPatients s) (savedTaskCompletionData s)
          (cards s) (notices s) (timers s).

Definition setActivePatients (l : list Patient) (s : State) : State :=
  mkState (taskCompletionData s) l (archivedPatients s) (savedTaskCompletionData s)
          (cards s) (notices s) (timers s).

Definition setArchivedPatients (l : list Patient) (s : State) : State :=
  mkState (taskCompletionData s) (activePatients s) l (savedTaskCompletionData s)
          (cards s) (notices s) (timers s).

Definition setSaved (m : gmap string (list Task)) (s : State) : State :=
  mkState (taskCompletionData s) (activePatients s) (archivedPatients s) m
          (cards s) (notices s) (timers s).

Definition setCards (c : gmap string Card) (s : State) : State :=
  mkState (taskCompletionData s) (activePatients s) (archivedPatients s)
          (savedTaskCompletionData s) c (notices s) (timers s).

Definition addNotice (n : Notice) (s : State) : State :=
  mkState (taskCompletionData s) (activePatients s) (archivedPatients s)
          (savedTaskCompletionData s) (cards s) (notices s ++ [n]) (timers s).

Definition addTimer (t : nat * Callback) (s : State) : State :=
  mkState (taskCompletionData s) (activePatients s) (archivedPatients s)
          (savedTaskCompletionData s) (cards s) (notices s) (timers s ++ [t]).

(** ** Effects: state and exceptions

    A statement either returns, or throws; in both cases the state it
    leaves behind is kept, since a mutation made before a throw stays. *)

Inductive Error := TypeError.

Inductive Result (A : Type) :=
  | Returned (a : A) (s : State)
  | Threw (e : Error) (s : State).
Arguments Returned {A} a s.
Arguments Threw {A} e s.

Definition Eff (A : Type) : Type := State -> Result A.

Definition ret {A} (a : A) : Eff A := fun s => Returned a s.

Definition bind {A B} (m : Eff A) (k : A -> Eff B) : Eff B :=
  fun s => match m s with
           | Returned a s' => k a s'
           | Threw e s' => Threw e s'
           end.

Declare Scope eff_scope.
Delimit Scope eff_scope with eff.
Notation "x <- m ;; k" := (bind m (fun x => k))
  (at level 100, m at next level, right associativity) : eff_scope.
Notation "m ;; k" := (bind m (fun _ => k))
  (at level 100, right associativity) : eff_scope.

Definition throw {A} (e : Error) : Eff A := fun s => Threw e s.

Definition gets {A} (f : State -> A) : Eff A := fun s => Returned (f s) s.

Definition modify (f : State -> State) : Eff unit := fun s => Returned tt (f s).

(** Reading a property of [undefined] or [null] throws a TypeError. *)
Definition orTypeError {A} (o : option A) : Eff A :=
  match o with
  | Some a => ret a
  | None => throw TypeError
  end.

Definition finalState {A} (r : Result A) : State :=
  match r with
  | Returned _ s => s
  | Threw _ s => s
  end.

(** ** Writes into the tree *)

Definition setLeafComplete (b : bool) (l : SubSubtask) : SubSubtask :=
  mkSubSubtask (ss_name l) (ss_type l) (ss_value l) b.

Definition setLeafValue (v : string) (l : SubSubtask) : SubSubtask :=
  mkSubSubtask (ss_name l) (ss_type l) (Some v) (ss_complete l).

Definition setSubtaskComplete (b : bool) (s : Subtask) : Subtask :=
  mkSubtask (st_name s) b (st_subSubtasks s) (st_note s).

Definition setSubSubtasks (l : list SubSubtask) (s : Subtask) : Subtask :=
  mkSubtask (st_name s) (st_complete s) (Some l) (st_note s).

Definition setSubtasks (l : list Subtask) (t : Task) : Task :=
  mkTask (t_id t) (t_name t) l.

(** The tree is reached through [window.taskCompletionData], so a write to
    a task shows in the map: [tasks[taskIndex]] becomes [task]. *)
Definition storeTask (patientId : string) (taskIndex : nat) (task : Task) : Eff unit :=
  modify (fun s =>
    setTaskCompletionData
      (alter (fun tasks => <[taskIndex := task]> tasks) patientId (taskCompletionData s)) s).

(** [localStorage.setItem('taskCompletionData', JSON.stringify(window.taskCompletionData))] *)
Definition saveTaskCompletionData : Eff unit :=
  modify (fun s => setSaved (taskCompletionData s) s).

Definition showNotification (message kind : string) : Eff unit :=
  modify (addNotice (Notification message kind)).

Definition setStatus (message kind : string) : Eff unit :=
  modify (addNotice (StatusLine message kind)).

Definition setTimeout (cb : Callback) (delay : nat) : Eff unit :=
  modify (addTimer (delay, cb)).

(** [try { body } catch (error) { handler }] *)
Definition tryCatch {A} (body : Eff A) (handler : Error -> Eff A) : Eff A :=
  fun s => match body s with
           | Returned a s' => Returned a s'
           | Threw e s' => handler e s'
           end.

(** ** The rendered timeline card *)

(** [document.querySelector] of the task item of a card gives [null] when
    it is not rendered; the next statement reads a property of it. *)
Definition showTaskStatus (patientId : string) (taskIndex : nat) (st : Status) : Eff unit :=
  fun s =>
    match cards s !! patientId with
    | Some card =>
        match card_items card !! taskIndex with
        | Some _ =>
            Returned tt
              (setCards (<[patientId := mkCard (<[taskIndex := st]> (card_items card))
                                              (card_progress card)]> (cards s)) s)
        | None => Threw TypeError s
        end
    | None => Threw TypeError s
    end.

(** The progress text and bar of the card are set to
    [calculateProgress(patientId)], which is returned. *)
Definition showProgress (patientId : string) : Eff Z :=
  fun s =>
    let progress := calculateProgress (taskCompletionData s) patientId in
    match cards s !! patientId with
    | Some card =>
        Returned progress
          (setCards (<[patientId := mkCard (card_items card) progress]> (cards s)) s)
    | None => Threw TypeError s
    end.

(** ** Status of a task at the mutation sites *)

Definition statusOf (completedSubtasks totalSubtasks : nat) : Status :=
  if (completedSubtasks =? 0)%nat then NotStarted
  else if (completedSubtasks =? totalSubtasks)%nat then Complete
  else Partial.

(** The invoice branch, the same text at app.js:2966-2982, 3086-3102 and
    3192-3208; the result is [(completedSubtasks, totalSubtasks)]. *)
Definition invoiceRecount (task : Task) : nat * nat :=
  let totalSubtasks := length (t_subtasks task) in
  if sentInvoice task && (paidViaQuickbooks task || paidViaCheck task)
  then (totalSubtasks, totalSubtasks)
  else if sentInvoice task then (1%nat, totalSubtasks)
  else (0%nat, totalSubtasks).

(** Standard branch of [toggleSubtask] (app.js:2985-3004). *)
Definition recountSubtaskDeep (acc : nat * nat) (subtask : Subtask) : nat * nat :=
  let '(completedSubtasks, totalSubtasks) := acc in
  let totalSubtasks := S totalSubtasks in
  if hasSubSubtasks subtask then
    if allSubSubtasksComplete (default [] (st_subSubtasks subtask))
    then (S completedSubtasks, totalSubtasks)
    else (completedSubtasks, totalSubtasks)
  else
    if st_complete subtask then (S completedSubtasks, totalSubtasks)
    else (completedSubtasks, totalSubtasks).

Definition recountDeep (task : Task) : nat * nat :=
  if String.eqb (t_id task) "invoice" then invoiceRecount task
  else fold_left recountSubtaskDeep (t_subtasks task) (0%nat, 0%nat).

(** Standard branch of [toggleSubSubtask] and [updateSubSubtaskInput]
    (app.js:3105-3108 and 3211-3214): the subtasks' own flags are counted. *)
Definition recountSubtaskFlat (acc : nat * nat) (subtask : Subtask) : nat * nat :=
  let '(completedSubtasks, totalSubtasks) := acc in
  let totalSubtasks := S totalSubtasks in
  if st_complete subtask then (S completedSubtasks, totalSubtasks)
  else (completedSubtasks, totalSubtasks).

Definition recountFlat (task : Task) : nat * nat :=
  if String.eqb (t_id task) "invoice" then invoiceRecount task
  else fold_left recountSubtaskFlat (t_subtasks task) (0%nat, 0%nat).

(** The tail that the three mutations share: card status, progress,
    persistence and the auto-archive check. *)
Definition refreshAndSave (patientId : string) (taskIndex : nat) (counts : nat * nat) : Eff unit :=
  (showTaskStatus patientId taskIndex (statusOf (fst counts) (snd counts)) ;;
   progress <- showProgress patientId ;;
   saveTaskCompletionData ;;
   if (progress =? 100)%Z
   then setTimeout (AutoArchivePatient patientId) 1000
   else ret tt)%eff.

(** ** Mutation operations *)

(** [toggleSubtask(patientId, taskIndex, subtaskIndex)] (app.js:2955-3054) *)
Definition toggleSubtask (patientId : string) (taskIndex subtaskIndex : nat) : Eff unit :=
  (m <- gets taskCompletionData ;;
   tasks <- orTypeError (m !! patientId) ;;
   task <- orTypeError (tasks !! taskIndex) ;;
   subtask <- orTypeError (t_subtasks task !! subtaskIndex) ;;
   let checked := negb (st_complete subtask) in
   let task := setSubtasks (<[subtaskIndex := setSubtaskComplete checked subtask]> (t_subtasks task)) task in
   storeTask patientId taskIndex task ;;
   refreshAndSave patientId taskIndex (recountDeep task))%eff.

(** The loop that counts the complete leaves of the subtask. *)
Definition completedSubSubtasks (subSubtasks : list SubSubtask) : nat :=
  fold_left (fun n subSubtask => if ss_complete subSubtask then S n else n) subSubtasks 0%nat.

(** After a leaf is written (app.js:3065-3080 and 3171-3186) the subtask's
    own flag is set from its leaves. *)
Definition withLeaves (subSubtasks : list SubSubtask) (subtask : Subtask) : Subtask :=
  setSubtaskComplete
    (completedSubSubtasks subSubtasks =? length subSubtasks)%nat
    (setSubSubtasks subSubtasks subtask).

(** [toggleSubSubtask(patientId, taskIndex, subtaskIndex, subSubtaskIndex)]
    (app.js:3057-3158) *)
Definition toggleSubSubtask (patientId : string)
    (taskIndex subtaskIndex subSubtaskIndex : nat) : Eff unit :=
  (m <- gets taskCompletionData ;;
   tasks <- orTypeError (m !! patientId) ;;
   task <- orTypeError (tasks !! taskIndex) ;;
   subtask <- orTypeError (t_subtasks task !! subtaskIndex) ;;
   subSubtasks <- orTypeError (st_subSubtasks subtask) ;;
   leaf <- orTypeError (subSubtasks !! subSubtaskIndex) ;;
   let checked := negb (ss_complete leaf) in
   let subSubtasks := <[subSubtaskIndex := setLeafComplete checked leaf]> subSubtasks in
   let subtask := withLeaves subSubtasks subtask in
   let task := setSubtasks (<[subtaskIndex := subtask]> (t_subtasks task)) task in
   storeTask patientId taskIndex task ;;
   refreshAndSave patientId taskIndex (recountFlat task))%eff.

(** [updateSubSubtaskInput(patientId, taskIndex, subtaskIndex,
    subSubtaskIndex, value)] (app.js:3161-3264) *)
Definition updateSubSubtaskInput (patientId : string)
    (taskIndex subtaskIndex subSubtaskIndex : nat) (value : string) : Eff unit :=
  (m <- gets taskCompletionData ;;
   tasks <- orTypeError (m !! patientId) ;;
   task <- orTypeError (tasks !! taskIndex) ;;
   subtask <- orTypeError (t_subtasks task !! subtaskIndex) ;;
   subSubtasks <- orTypeError (st_subSubtasks subtask) ;;
   leaf <- orTypeError (subSubtasks !! subSubtaskIndex) ;;
   let leaf := setLeafValue value leaf in
   let leaf := setLeafComplete (0 <? String.length (JS.trim value))%nat leaf in
   let subSubtasks := <[subSubtaskIndex := leaf]> subSubtasks in
   let subtask := withLeaves subSubtasks subtask in
   let task := setSubtasks (<[subtaskIndex := subtask]> (t_subtasks task)) task in
   storeTask patientId taskIndex task ;;
   refreshAndSave patientId taskIndex (recountFlat task))%eff.

(** ** Patient records *)

Definition doubleQuote : string := String (ascii_of_nat 34) EmptyString.

(** [value || fallback] on a property that may be absent: the empty string
    is falsy as well. *)
Definition orElse (o : option string) (fallback : string) : string :=
  match o with
  | Some v => if String.eqb v "" then fallback else v
  | None => fallback
  end.

(** [patient.id || `patient-${name}-${suffix}`], where [name] is
    [patient['Patient Name']?.replace(/\s+/g, '-').toLowerCase() || 'unknown']
    (app.js:2505); [suffix] is the text of [Date.now()]. *)
Definition patientIdOf (patient : Patient) (suffix : string) : string :=
  orElse (patient !! "id")
    ("patient-"
       +:+ orElse ((fun n => JS.toLowerCase (JS.replaceSpaces n)) <$> patient !! "Patient Name")
                  "unknown"
       +:+ "-" +:+ suffix).

(** The predicate of [patients.findIndex] in [markAllTasksComplete]. *)
Definition nameMatches (patientName : string) (p : Patient) : bool :=
  let matches (field : string) :=
    match p !! field with
    | Some n => negb (String.eqb n "")
                && JS.includes (JS.toLowerCase n) (JS.toLowerCase patientName)
    | None => false
    end in
  matches "Patient Name" || matches "patientName".

(** [array.findIndex(p)], with the element found; [None] stands for -1. *)
Fixpoint findIndex {A} (p : A -> bool) (l : list A) : option (nat * A) :=
  match l with
  | [] => None
  | x :: l' => if p x then Some (0%nat, x)
               else (fun r => (S (fst r), snd r)) <$> findIndex p l'
  end.

(** [if (!window.taskCompletionData[patientId])
       window.taskCompletionData[patientId] = initializePatientTasks();]
    (app.js:1994-1996 and 2508-2510) *)
Definition ensureTasks (patientId : string) : Eff unit :=
  modify (fun s =>
    match taskCompletionData s !! patientId with
    | Some _ => s
    | None => setTaskCompletionData
                (<[patientId := initializePatientTasks]> (taskCompletionData s)) s
    end).

(** The two nested [forEach] of [markAllTasksComplete] (app.js:2514-2526). *)
Definition completeSubtask (subtask : Subtask) : Subtask :=
  let subtask := setSubtaskComplete true subtask in
  match st_subSubtasks subtask with
  | Some subSubtasks => setSubSubtasks (map (setLeafComplete true) subSubtasks) subtask
  | None => subtask
  end.

Definition completeAll (tasks : list Task) : list Task :=
  map (fun task => setSubtasks (map completeSubtask (t_subtasks task)) task) tasks.

(** [markAllTasksComplete(patientName)] (app.js:2492-2542); [now] is the
    text of [Date.now()]. *)
Definition markAllTasksComplete (patientName now : string) : Eff unit :=
  tryCatch
    (patients <- gets activePatients ;;
     match findIndex (nameMatches patientName) patients with
     | None =>
         showNotification
           ("Patient " +:+ doubleQuote +:+ patientName +:+ doubleQuote
              +:+ " not found in active patients") "error"
     | Some (_, patient) =>
         let patientId := patientIdOf patient now in
         ensureTasks patientId ;;
         modify (fun s =>
           setTaskCompletionData (alter completeAll patientId (taskCompletionData s)) s) ;;
         saveTaskCompletionData ;;
         showNotification ("All tasks marked as complete for " +:+ patientName +:+ "!") "success" ;;
         setTimeout LoadPatientTimelines 1000
     end)%eff
    (fun _ => showNotification "Failed to mark tasks as complete. Please try again." "error").

(** ** Archive transitions *)

(** [p => p.id === patientId] *)
Definition hasId (patientId : string) (p : Patient) : bool :=
  bool_decide (p !! "id" = Some patientId).

(** [autoArchivePatient(patientId)] (app.js:527-568); [today] is the text
    of [new Date().toLocaleDateString()].  The refresh of the current view
    at the end is rendering and is left out. *)
Definition autoArchivePatient (patientId today : string) : Eff unit :=
  tryCatch
    (patients <- gets activePatients ;;
     archived <- gets archivedPatients ;;
     match findIndex (hasId patientId) patients with
     | None => ret tt
     | Some (patientIndex, patient) =>
         let patient := <["archivedDate" := today]> patient in
         let patient := <["archivedBy" := "Auto-Archive (100% Complete)"]> patient in
         let patient := <["archivedReason" := "All tasks completed"]> patient in
         modify (setActivePatients (delete patientIndex patients)) ;;
         modify (setArchivedPatients (archived ++ [patient])) ;;
         setStatus ("Patient " +:+ default "undefined" (patient !! "name")
                      +:+ " has been automatically archived (100% complete)") "success"
     end)%eff
    (fun _ => setStatus "Error auto-archiving patient" "error").

(** [restorePatient(archivedIndex)] (app.js:2239-2274) *)
Definition restorePatient (archivedIndex : Z) : Eff unit :=
  tryCatch
    (archived <- gets archivedPatients ;;
     active <- gets activePatients ;;
     if (0 <=? archivedIndex)%Z && (archivedIndex <? Z.of_nat (length archived))%Z then
       patient <- orTypeError (archived !! Z.to_nat archivedIndex) ;;
       let patient := delete "archivedBy" (delete "archivedDate" patient) in
       modify (setActivePatients (active ++ [patient])) ;;
       modify (setArchivedPatients (delete (Z.to_nat archivedIndex) archived)) ;;
       showNotification ("Patient " +:+ orElse (patient !! "Patient Name") "Unknown"
                           +:+ " restored to active patients!") "success" ;;
       setTimeout LoadArchivedPatients 1000
     else showNotification "Invalid patient index" "error")%eff
    (fun _ => showNotification "Failed to restore patient. Please try again." "error").


(** ** Reachable states

    The operations of the checklist, as the page and the console call
    them.  [ViewPatient] is the initialization a timeline view makes for a
    patient without a stored tree. *)

Inductive Op :=
  | ViewPatient (patientId : string)
  | ToggleSubtask (patientId : string) (taskIndex subtaskIndex : nat)
  | ToggleSubSubtask (patientId : string) (taskIndex subtaskIndex subSubtaskIndex : nat)
  | UpdateSubSubtaskInput (patientId : string)
      (taskIndex subtaskIndex subSubtaskIndex : nat) (value : string)
  | MarkAllTasksComplete (patientName now : string).

Definition run (op : Op) : Eff unit :=
  match op with
  | ViewPatient patientId => ensureTasks patientId
  | ToggleSubtask patientId ti si => toggleSubtask patientId ti si
  | ToggleSubSubtask patientId ti si ssi => toggleSubSubtask patientId ti si ssi
  | UpdateSubSubtaskInput patientId ti si ssi v => updateSubSubtaskInput patientId ti si ssi v
  | MarkAllTasksComplete patientName now => markAllTasksComplete patientName now
  end.

(** A run starts with an empty task map.  Between two operations anything
    may happen to the rest of the state (patients are taken in, archived
    and restored, views are rendered), as long as the in-memory task map is
    left alone.  [allowed] restricts the operations that are considered. *)
Inductive reachableBy (allowed : State -> Op -> Prop) : State -> Prop :=
  | reachable_start s :
      taskCompletionData s = ∅ -> reachableBy allowed s
  | reachable_op s op :
      reachableBy allowed s -> allowed s op ->
      reachableBy allowed (finalState (run op s))
  | reachable_env s s' :
      reachableBy allowed s ->
      taskCompletionData s' = taskCompletionData s ->
      reachableBy allowed s'.

Definition reachable : State -> Prop := reachableBy (fun _ _ => True).


(** The leaf an operation addresses, if there is one. *)
Definition leafAt (s : State) (patientId : string) (ti si ssi : nat) : option SubSubtask :=
  match taskCompletionData s !! patientId with
  | Some tasks =>
      match tasks !! ti with
      | Some task =>
          match t_subtasks task !! si with
          | Some subtask =>
              match st_subSubtasks subtask with
              | Some l => l !! ssi
              | None => None
              end
          | None => None
          end
      | None => None
      end
  | None => None
  end.


(** ** Shape of a tree: everything but the flags and the texts *)

Definition leafShape (l : SubSubtask) : SubSubtask :=
  mkSubSubtask (ss_name l) (ss_type l) None false.

Definition subtaskShape (s : Subtask) : Subtask :=
  mkSubtask (st_name s) false (map leafShape <$> st_subSubtasks s) (st_note s).

Definition taskShape (t : Task) : Task :=
  mkTask (t_id t) (t_name t) (map subtaskShape (t_subtasks t)).

Definition templateShaped (tasks : list Task) : Prop :=
  map taskShape tasks = map taskShape initializePatientTasks.

(** Every stored tree is an instance of the template. *)
Definition wellShaped (s : State) : Prop :=
  forall patientId tasks,
    taskCompletionData s !! patientId = Some tasks -> templateShaped tasks.



(** ** The rules as the specification words them *)

Module Spec.

(** "A subtask with sub-subtasks contributes 1 completed item iff ALL its
    sub-subtasks are complete; a subtask without sub-subtasks contributes
    per its own complete flag." *)
Definition effectiveComplete (s : Subtask) : bool :=
  match st_subSubtasks s with
  | Some (l :: ls) => forallb ss_complete (l :: ls)
  | _ => st_complete s
  end.

(** [subtask["name"].complete] and [subSubtask["name"].complete]: the
    flag of the first entry with that name, false without one. *)
Definition subtaskNamed (name : string) (task : Task) : option Subtask :=
  head (filter (fun s => st_name s = name) (t_subtasks task)).

Definition sent (task : Task) : bool :=
  from_option st_complete false (subtaskNamed "Sent Invoice" task).

Definition paid (name : string) (task : Task) : bool :=
  match subtaskNamed "Payment Received" task with
  | Some s =>
      from_option ss_complete false
        (head (filter (fun l => ss_name l = name) (default [] (st_subSubtasks s))))
  | None => false
  end.

(** "Contributes 2 total items; contributes 2 completed items if
    sent && (paidQB || paidCheck), 1 if sent alone, else 0." *)
Definition invoiceCompleted (task : Task) : nat :=
  if sent task && (paid "Paid via Quickbooks" task || paid "Paid via Check" task)
  then 2 else if sent task then 1 else 0.

(** Total and completed items of one task. *)
Definition taskItems (task : Task) : nat * nat :=
  if bool_decide (t_id task = "invoice")
  then (2%nat, invoiceCompleted task)
  else (length (t_subtasks task),
        length (filter (fun s => effectiveComplete s = true) (t_subtasks task))).

(** "A task's overall status is not-started/partial/complete by counting
    completed vs total subtasks." *)
Definition taskStatus (task : Task) : Status :=
  let '(total, completed) := taskItems task in
  if bool_decide (completed = 0%nat) then NotStarted
  else if bool_decide (completed = total) then Complete
  else Partial.

(** round(100 * completedItems / totalItems), a half going up. *)
Definition roundPercent (completedItems totalItems : nat) : Z :=
  (200 * Z.of_nat completedItems + Z.of_nat totalItems) / (2 * Z.of_nat totalItems).


End Spec.

(** * Vocabulary of the statements *)

(** ** The tree after a write *)

(** The task after [toggleSubtask] has flipped the flag of [subtask]. *)
Definition toggledSubtask (si : nat) (subtask : Subtask) (task : Task) : Task :=
  setSubtasks (<[si := setSubtaskComplete (negb (st_complete subtask)) subtask]> (t_subtasks task)) task.

(** The task after [leaf] was written at position [ssi] of the leaves of
    [subtask] and the flag of the subtask was recomputed. *)
Definition writtenLeaf (si ssi : nat) (leaf : SubSubtask) (leaves : list SubSubtask)
    (subtask : Subtask) (task : Task) : Task :=
  setSubtasks (<[si := withLeaves (<[ssi := leaf]> leaves) subtask]> (t_subtasks task)) task.

(** The leaf after [updateSubSubtaskInput] has stored [value] in it. *)
Definition typedLeaf (value : string) (leaf : SubSubtask) : SubSubtask :=
  setLeafComplete (0 <? String.length (JS.trim value))%nat (setLeafValue value leaf).

(** The state right after the write of [task] at [tasks[taskIndex]]. *)
Definition written (patientId : string) (taskIndex : nat) (task : Task) (s : State) : State :=
  setTaskCompletionData
    (alter (fun tasks => <[taskIndex := task]> tasks) patientId (taskCompletionData s)) s.

(** The state the shared tail of the mutations leaves when the card is
    rendered. *)
Definition afterRefresh (patientId : string) (taskIndex : nat) (counts : nat * nat)
    (card : Card) (s : State) : State :=
  let progress := calculateProgress (taskCompletionData s) patientId in
  mkState (taskCompletionData s) (activePatients s) (archivedPatients s)
    (taskCompletionData s)
    (<[patientId := mkCard (<[taskIndex := statusOf (fst counts) (snd counts)]> (card_items card))
                           progress]> (cards s))
    (notices s)
    (timers s ++ (if (progress =? 100)%Z then [(1000%nat, AutoArchivePatient patientId)] else [])).

(** The task and the subtask an operation addresses, and the status a
    card shows for a task. *)
Definition taskAt (s : State) (patientId : string) (ti : nat) : option Task :=
  match taskCompletionData s !! patientId with
  | Some tasks => tasks !! ti
  | None => None
  end.

Definition subtaskAt (s : State) (patientId : string) (ti si : nat) : option Subtask :=
  match taskCompletionData s !! patientId with
  | Some tasks =>
      match tasks !! ti with
      | Some task => t_subtasks task !! si
      | None => None
      end
  | None => None
  end.


(** The in-memory map after an operation, whether it returned or threw:
    what each operation can have written. *)
Inductive TreeStep (s : State) : Op -> gmap string (list Task) -> Prop :=
  | step_none op :
      TreeStep s op (taskCompletionData s)
  | step_view patientId :
      taskCompletionData s !! patientId = None ->
      TreeStep s (ViewPatient patientId)
        (<[patientId := initializePatientTasks]> (taskCompletionData s))
  | step_toggleSubtask patientId ti si tasks task subtask :
      taskCompletionData s !! patientId = Some tasks ->
      tasks !! ti = Some task ->
      t_subtasks task !! si = Some subtask ->
      TreeStep s (ToggleSubtask patientId ti si)
        (<[patientId := <[ti := toggledSubtask si subtask task]> tasks]> (taskCompletionData s))
  | step_toggleSubSubtask patientId ti si ssi tasks task subtask leaves leaf :
      taskCompletionData s !! patientId = Some tasks ->
      tasks !! ti = Some task ->
      t_subtasks task !! si = Some subtask ->
      st_subSubtasks subtask = Some leaves ->
      leaves !! ssi = Some leaf ->
      TreeStep s (ToggleSubSubtask patientId ti si ssi)
        (<[patientId := <[ti := writtenLeaf si ssi (setLeafComplete (negb (ss_complete leaf)) leaf)
                                  leaves subtask task]> tasks]> (taskCompletionData s))
  | step_updateSubSubtaskInput patientId ti si ssi value tasks task subtask leaves leaf :
      taskCompletionData s !! patientId = Some tasks ->
      tasks !! ti = Some task ->
      t_subtasks task !! si = Some subtask ->
      st_subSubtasks subtask = Some leaves ->
      leaves !! ssi = Some leaf ->
      TreeStep s (UpdateSubSubtaskInput patientId ti si ssi value)
        (<[patientId := <[ti := writtenLeaf si ssi (typedLeaf value leaf)
                                  leaves subtask task]> tasks]> (taskCompletionData s))
  | step_markAll patientName now patientId :
      TreeStep s (MarkAllTasksComplete patientName now)
        (<[patientId := completeAll (default initializePatientTasks
                                       (taskCompletionData s !! patientId))]>
           (taskCompletionData s)).

(** ** The mutation sites *)

(** The three mutations of a task of a patient. *)
Definition mutates (op : Op) (patientId : string) (ti : nat) : Prop :=
  match op with
  | ToggleSubtask p t _ | ToggleSubSubtask p t _ _ | UpdateSubSubtaskInput p t _ _ _ =>
      p = patientId /\ t = ti
  | _ => False
  end.

(** The recount each mutation makes of the task it wrote to. *)
Definition siteRecount (op : Op) (task : Task) : nat * nat :=
  match op with
  | ToggleSubtask _ _ _ => recountDeep task
  | _ => recountFlat task
  end.

(** ** Facts of the template *)

(** One item more when the flag is set. *)
Definition bump (b : bool) : nat := if b then 1%nat else 0%nat.

(** Number of subtasks that have sub-subtasks. *)
Definition groups (task : Task) : nat :=
  length (List.filter hasSubSubtasks (t_subtasks task)).

(** In a shaped tree the invoice has two subtasks and no task has more
    than one subtask with sub-subtasks. *)
Definition shapeFacts (task : Task) : bool :=
  (if String.eqb (t_id task) "invoice" then (length (t_subtasks task) =? 2)%nat else true)
  && (groups task <=? 1)%nat.

(** Number of subtasks of each task. *)
Definition sizes (tasks : list Task) : list nat :=
  map (fun t => length (t_subtasks t)) tasks.

(** ** The archive stamp *)

(** The record as [autoArchivePatient] stamps it. *)
Definition archiveStamp (today : string) (patient : Patient) : Patient :=
  <["archivedReason" := "All tasks completed"]>
    (<["archivedBy" := "Auto-Archive (100% Complete)"]>
       (<["archivedDate" := today]> patient)).

(** ** Sample states *)

Definition adam : Patient :=
  <["id" := "p1"]> (<["Patient Name" := "Adam Jones"]> ∅).

Definition freshCard : Card := mkCard (replicate 11 NotStarted) 0.

(** One active patient, rendered, no tree stored yet. *)
Definition startState : State :=
  mkState ∅ [adam] [] ∅ (<["p1" := freshCard]> ∅) [] [].

Definition runAll (ops : list Op) (s : State) : State :=
  fold_left (fun s op => finalState (run op s)) ops s.

(** A tree was set up for the patient. *)
Definition viewedState : State := runAll [ViewPatient "p1"] startState.

(** The invoice was sent and paid by check. *)
Definition paidState : State :=
  runAll [ViewPatient "p1"; ToggleSubtask "p1" 1 0; ToggleSubSubtask "p1" 1 1 1] startState.


(** The group flag of 'Written Request' was set by hand while its leaf is
    open. *)
Definition flaggedState : State :=
  runAll [ViewPatient "p1"; ToggleSubtask "p1" 0 0] startState.

(** Three runs that end with a free-text leaf whose flag and text
    disagree. *)
Definition markedState : State :=
  runAll [ViewPatient "p1"; MarkAllTasksComplete "adam" "1700000000000"] startState.



(** Every box was ticked through [markAllTasksComplete]; then one more
    toggle of a group flag leaves the progress at 100. *)
Definition doneState : State := finalState (toggleSubtask "p1" 0 0 markedState).

(** The state once the scheduled auto-archive has run. *)
Definition archivedState : State :=
  finalState (autoArchivePatient "p1" "11/2/2026" doneState).


(** * More of app.js

    The functions around the checklist: the manual archive and the
    deletion from the archive, the first rendering of the task statuses and
    their refresh, the filter of the timelines, the export, the ids of the
    records without id, the migration of old keys and the data cache. *)

(** ** Manual archive and deletion *)

(** [archivePatient(patientIndex)] (app.js:2129-2171); [today] is the text
    of [new Date().toLocaleDateString()] and [now] the text of
    [Date.now()].  The id of the task data to remove is read from
    [patients[patientIndex]] after the record was spliced out. *)
Definition archivePatient (patientIndex : Z) (today now : string) : Eff unit :=
  tryCatch
    (patients <- gets activePatients ;;
     archived <- gets archivedPatients ;;
     if (0 <=? patientIndex)%Z && (patientIndex <? Z.of_nat (length patients))%Z then
       patient <- orTypeError (patients !! Z.to_nat patientIndex) ;;
       let patient := <["archivedDate" := today]> patient in
       let patient := <["archivedBy" := "System"]> patient in
       let archived := (archived ++ [patient])%list in
       let patients := delete (Z.to_nat patientIndex) patients in
       modify (setActivePatients patients) ;;
       modify (setArchivedPatients archived) ;;
       next <- orTypeError (patients !! Z.to_nat patientIndex) ;;
       let patientId := patientIdOf next now in
       modify (fun s =>
         match taskCompletionData s !! patientId with
         | Some _ => setTaskCompletionData (delete patientId (taskCompletionData s)) s
         | None => s
         end) ;;
       showNotification ("Patient " +:+ orElse (patient !! "Patient Name") "Unknown"
                           +:+ " archived successfully!") "success" ;;
       setTimeout LoadPatientTimelines 1000
     else showNotification "Invalid patient index" "error")%eff
    (fun _ => showNotification "Failed to archive patient. Please try again." "error").

(** [deleteArchivedPatient(archivedIndex)] (app.js:2277-2305);
    [confirmed] is the answer to the [confirm] dialog. *)
Definition deleteArchivedPatient (archivedIndex : Z) (confirmed : bool) : Eff unit :=
  if confirmed then
    tryCatch
      (archived <- gets archivedPatients ;;
       if (0 <=? archivedIndex)%Z && (archivedIndex <? Z.of_nat (length archived))%Z then
         patient <- orTypeError (archived !! Z.to_nat archivedIndex) ;;
         modify (setArchivedPatients (delete (Z.to_nat archivedIndex) archived)) ;;
         showNotification ("Patient " +:+ orElse (patient !! "Patient Name") "Unknown"
                             +:+ " permanently deleted!") "success" ;;
         setTimeout LoadArchivedPatients 1000
       else showNotification "Invalid patient index" "error")%eff
      (fun _ => showNotification "Failed to delete patient. Please try again." "error")
  else ret tt.

(** ** First rendering of the statuses (app.js:2693-2733) *)

(** [task.subtasks.find(s => s.name === name)?.complete || false] *)
Definition subtaskFlag (name : string) (task : Task) : bool :=
  match findSubtask name (t_subtasks task) with
  | Some s => st_complete s
  | None => false
  end.

(** The status class [generateImprovedTimelineSteps] gives a task.  The
    invoice branch looks for subtasks named 'Paid Invoice' and
    'Paid via Check'; the standard branch counts the subtasks' own
    flags. *)
Definition initialStatus (task : Task) : Status :=
  if String.eqb (t_id task) "invoice" then
    let sentInvoice := subtaskFlag "Sent Invoice" task in
    let paidInvoice := subtaskFlag "Paid Invoice" task in
    let paidViaCheck := subtaskFlag "Paid via Check" task in
    if sentInvoice && (paidInvoice || paidViaCheck) then Complete
    else if sentInvoice then Partial
    else NotStarted
  else
    let completedSubtasks := length (List.filter st_complete (t_subtasks task)) in
    let totalSubtasks := length (t_subtasks task) in
    if (completedSubtasks =? 0)%nat then NotStarted
    else if (completedSubtasks =? totalSubtasks)%nat then Complete
    else Partial.


(** ** Refresh of the statuses (app.js:72-160) *)




(** ** Filter of the timelines (app.js:3367-3400) *)




(** ** Export (app.js:2084-2100) *)

(** [progress === 100 ? 'Complete' : progress > 0 ? 'Partial' : 'Not Started'] *)
Definition exportStatus (progress : Z) : string :=
  if (progress =? 100)%Z then "Complete"
  else if (0 <? progress)%Z then "Partial"
  else "Not Started".

(** The 'Status' cell of the row of a record. *)
Definition exportedStatus (s : State) (patient : Patient) (now : string) : string :=
  exportStatus (calculateProgress (taskCompletionData s) (patientIdOf patient now)).

(** ** Ids of the timeline (app.js:1978-1983) *)

(** [patient.id || `patient-${patientName.replace(/\s+/g, '-').toLowerCase()}-${index}`]
    with [patientName = patient['Patient Name'] || 'Unknown']. *)
Definition timelineId (patient : Patient) (index : nat) : string :=
  let patientName := orElse (patient !! "Patient Name") "Unknown" in
  orElse (patient !! "id")
    ("patient-" +:+ JS.toLowerCase (JS.replaceSpaces patientName) +:+ "-" +:+ pretty index).

(** [`patient-${index}`], the key of the old index-based ids. *)
Definition oldPatientId (index : nat) : string := "patient-" +:+ pretty index.

(** ** Migration of the old keys (app.js:229-256) *)

(** Body of [activePatients.forEach((patient, index) => ...)]; the pair
    holds the map and [needsUpdate]. *)
Definition migrateOne (index : nat) (patient : Patient)
    (acc : gmap string (list Task) * bool) : gmap string (list Task) * bool :=
  let '(m, needsUpdate) := acc in
  let newPatientId := orElse (patient !! "id") "" in
  match m !! oldPatientId index with
  | Some tasks =>
      if String.eqb newPatientId "" then acc
      else
        match m !! newPatientId with
        | None => (delete (oldPatientId index) (<[newPatientId := tasks]> m), true)
        | Some _ => acc
        end
  | None => acc
  end.

Fixpoint migrateFrom (index : nat) (patients : list Patient)
    (acc : gmap string (list Task) * bool) : gmap string (list Task) * bool :=
  match patients with
  | [] => acc
  | patient :: rest => migrateFrom (S index) rest (migrateOne index patient acc)
  end.

(** [migrateTaskCompletionData()] *)
Definition migrateTaskCompletionData : Eff unit :=
  tryCatch
    (patients <- gets activePatients ;;
     m <- gets taskCompletionData ;;
     let '(m', needsUpdate) := migrateFrom 0 patients (m, false) in
     modify (setTaskCompletionData m') ;;
     if needsUpdate then saveTaskCompletionData else ret tt)%eff
    (fun _ => ret tt).

(** ** The data cache (app.js:5-7 and 165-183) *)

Definition CACHE_DURATION : Z := 30000.

Record Cached (D : Type) := mkCached {
  cached_data : D;
  cached_timestamp : Z
}.
Arguments mkCached {D} _ _.
Arguments cached_data {D} _.
Arguments cached_timestamp {D} _.

(** [getCachedData(key)]; [now] is [Date.now()] and [None] stands for
    [null]. *)
Definition getCachedData {D} (dataCache : gmap string (Cached D)) (now : Z) (key : string)
    : option D :=
  match dataCache !! key with
  | Some cached =>
      if (now - cached_timestamp cached <? CACHE_DURATION)%Z then Some (cached_data cached)
      else None
  | None => None
  end.

(** [setCachedData(key, data)] *)
Definition setCachedData {D} (dataCache : gmap string (Cached D)) (now : Z) (key : string)
    (data : D) : gmap string (Cached D) :=
  <[key := mkCached data now]> dataCache.

(** [clearCache()] *)
Definition clearCache {D} (dataCache : gmap string (Cached D)) : gmap string (Cached D) := ∅.

(** ** Statistics of the timelines (app.js:1955-1972) *)

(** [data.filter((p, i) => test(calculateProgress(patientId))).length],
    the id being the one of the card of [p] at [i]. *)
Fixpoint countFrom (test : Z -> bool) (m : gmap string (list Task)) (index : nat)
    (data : list Patient) : nat :=
  match data with
  | [] => 0%nat
  | p :: rest =>
      ((if test (calculateProgress m (timelineId p index)) then 1 else 0)
       + countFrom test m (S index) rest)%nat
  end.

(** The number under 'Incomplete'. *)
Definition incompleteCount (m : gmap string (list Task)) (data : list Patient) : nat :=
  countFrom (fun progress => (progress <? 100)%Z) m 0 data.

(** The number under 'Complete'. *)
Definition completeCount (m : gmap string (list Task)) (data : list Patient) : nat :=
  countFrom (fun progress => (progress =? 100)%Z) m 0 data.

(** ** Progress indicator of a patient card (app.js:808-829) *)

(** [patient[field] && patient[field].toLowerCase() === expected] *)
Definition fieldIs (patient : Patient) (field expected : string) : bool :=
  match patient !! field with
  | Some v => negb (String.eqb v "") && String.eqb (JS.toLowerCase v) expected
  | None => false
  end.

(** [patient[field]] as a condition. *)
Definition fieldGiven (patient : Patient) (field : string) : bool :=
  match patient !! field with
  | Some v => negb (String.eqb v "")
  | None => false
  end.

(** The eight tests, in the order of the source. *)
Definition indicators (patient : Patient) : list bool :=
  [ fieldIs patient "CP Completed" "complete";
    fieldIs patient "RXNT Info" "complete";
    fieldIs patient "WR" "yes";
    fieldGiven patient "Prescription Submit";
    fieldIs patient "PAID" "yes";
    fieldIs patient "Check list" "complete";
    fieldIs patient "Consent Received" "yes";
    fieldIs patient "Medical Records" "yes" ].

(** What the returned markup shows: the width of the bar in percent and
    the two numbers of the text. *)
Record Indicator := mkIndicator {
  ind_percentage : Z;
  ind_progress : nat;
  ind_total : nat
}.

(** [generateProgressIndicator(patient)] *)
Definition generateProgressIndicator (patient : Patient) : Indicator :=
  let progress := fold_left (fun n (b : bool) => if b then S n else n) (indicators patient) 0%nat in
  let total := 8%nat in
  let percentage :=
    JS.Math_round (JS.toNumber progress / JS.toNumber total * JS.toNumber 100)%float in
  mkIndicator percentage progress total.

(** ** Phone number of the intake form (app.js:4511-4519)

    The value of the input is its list of code units. *)

(** The complement of the class [\D]. *)
Definition isDigit (c : ascii) : bool :=
  let n := nat_of_ascii c in
  (48 <=? n)%nat && (n <=? 57)%nat.

(** [s.slice(from, to)] for [0 <= from <= to]. *)
Definition slice (from to : nat) (s : list ascii) : list ascii :=
  take (to - from) (drop from s).

(** The value [formatPhoneNumber(e)] writes back into the input. *)
Definition formatPhoneNumber (input : list ascii) : list ascii :=
  let value := List.filter isDigit input in
  if (6 <=? length value)%nat then
    ["("%char] ++ slice 0 3 value ++ [")"%char; " "%char] ++ slice 3 6 value
      ++ ["-"%char] ++ slice 6 10 value
  else if (3 <=? length value)%nat then
    ["("%char] ++ slice 0 3 value ++ [")"%char; " "%char] ++ drop 3 value
  else value.

(** ** Vocabulary of the further properties *)

(** The record as [archivePatient] stamps it. *)
Definition systemStamp (today : string) (patient : Patient) : Patient :=
  <["archivedBy" := "System"]> (<["archivedDate" := today]> patient).

(** Two active patients, both with a stored tree; the second one has
    ticked a box. *)
Definition bob : Patient :=
  <["id" := "p2"]> (<["Patient Name" := "Bob Stone"]> ∅).

Definition twoPatients : State :=
  runAll [ViewPatient "p1"; ViewPatient "p2"; ToggleSubtask "p2" 8 0]
    (mkState ∅ [adam; bob] [] ∅ ∅ [] []).

(** Number of records in the active and the archived collection. *)
Definition records (s : State) : nat :=
  (length (activePatients s) + length (archivedPatients s))%nat.



(** No subtask of the invoice is named 'Paid Invoice' or
    'Paid via Check'. *)
Definition noPaidSubtask (task : Task) : bool :=
  if String.eqb (t_id task) "invoice"
  then bool_decide (findSubtask "Paid Invoice" (t_subtasks task) = None)
       && bool_decide (findSubtask "Paid via Check" (t_subtasks task) = None)
  else true.

(** Every item of the tree is complete. *)
Definition allComplete (tasks : list Task) : Prop :=
  snd (countItems tasks) = fst (countItems tasks).






(** The value written for a string of digits. *)
Definition phoneOfDigits (value : list ascii) : list ascii :=
  if (6 <=? length value)%nat then
    ["("%char] ++ slice 0 3 value ++ [")"%char; " "%char] ++ slice 3 6 value
      ++ ["-"%char] ++ slice 6 10 value
  else if (3 <=? length value)%nat then
    ["("%char] ++ slice 0 3 value ++ [")"%char; " "%char] ++ drop 3 value
  else value.

(** A tree stored under the old index-based key of the first record. *)
Definition oldKeyState : State :=
  mkState (<["patient-0" := initializePatientTasks]> ∅) [adam] [] ∅ ∅ [] [].

(** * Properties *)

(** ** The model at work *)

Example trim_both_ends : JS.trim "  a b  " = "a b".
Proof. reflexivity. Qed.

Example blank_trims_to_empty : JS.trim " " = "".
Proof. reflexivity. Qed.

Example replaceSpaces_runs : JS.replaceSpaces "Adam   Jones " = "Adam-Jones-".
Proof. reflexivity. Qed.

Example includes_lowercase :
  JS.includes (JS.toLowerCase "Adam Jones") (JS.toLowerCase "adam") = true.
Proof. reflexivity. Qed.

Example round_tie_goes_up : JS.Math_round (JS.toNumber 5 / JS.toNumber 2)%float = 3.
Proof. reflexivity. Qed.

Example template_has_23_items : countItems initializePatientTasks = (23%nat, 0%nat).
Proof. reflexivity. Qed.

Example fresh_tree_progress :
  calculateProgress (taskCompletionData viewedState) "p1" = 0.
Proof. reflexivity. Qed.

Example marked_tree_progress :
  calculateProgress (taskCompletionData markedState) "p1" = 100.
Proof. vm_compute. reflexivity. Qed.

(** With other totals than the template's the binary64 product can fall
    short of a tie that the exact quotient reaches: 29 items of 200 are
    14.5 percent, and (29 / 200) * 100 is just below. *)
Example percentage_binary64 :
  percentage (200%nat, 29%nat) = 14 /\ Spec.roundPercent 29 200 = 15.
Proof. split; vm_compute; reflexivity. Qed.

(** ** Lists and folds *)

Section Folds.
Context {A B : Type}.

(** Replacing an element by one the loop body cannot tell apart leaves
    the result of the loop as it is. *)
Lemma fold_left_insert_same (f : B -> A -> B) (l : list A) (i : nat) (x y : A) (b : B) :
  l !! i = Some x ->
  (forall b', f b' y = f b' x) ->
  fold_left f (<[i := y]> l) b = fold_left f l b.
Proof.
  revert i b. induction l as [|a l IH]; intros [|i] b Hl Hf; simpl in *; try discriminate.
  - injection Hl as ->. now rewrite Hf.
  - now apply IH.
Qed.

Lemma fold_left_ext_Forall (f g : B -> A -> B) (l : list A) (b : B) :
  Forall (fun x => forall b', f b' x = g b' x) l ->
  fold_left f l b = fold_left g l b.
Proof.
  intros H. revert b. induction H as [|x l Hx _ IH]; intros b; simpl; [reflexivity|].
  now rewrite Hx, IH.
Qed.
End Folds.


(** ** The counting loops *)

Lemma allSubSubtasksComplete_forallb (l : list SubSubtask) :
  allSubSubtasksComplete l = forallb ss_complete l.
Proof.
  unfold allSubSubtasksComplete.
  assert (G : forall b, fold_left (fun all s => if negb (ss_complete s) then false else all) l b
                        = b && forallb ss_complete l).
  { induction l as [|x l IH]; intros b; simpl.
    - now rewrite andb_true_r.
    - rewrite IH. destruct (ss_complete x), b; reflexivity. }
  now rewrite G.
Qed.

Lemma completedSubSubtasks_filter (l : list SubSubtask) :
  completedSubSubtasks l = length (filter (fun s => ss_complete s = true) l).
Proof.
  unfold completedSubSubtasks.
  assert (G : forall n, fold_left (fun n s => if ss_complete s then S n else n) l n
                        = (n + length (filter (fun s => ss_complete s = true) l))%nat).
  { induction l as [|x l IH]; intros n; [simpl; lia|].
    rewrite filter_cons. cbn [fold_left]. rewrite IH.
    case_decide as Hx; [rewrite Hx | apply not_true_is_false in Hx; rewrite Hx];
      simpl; lia. }
  now rewrite G.
Qed.

(** The flag a leaf write gives the subtask is the conjunction of the
    leaves. *)
Lemma completed_all_forallb (l : list SubSubtask) :
  (completedSubSubtasks l =? length l)%nat = forallb ss_complete l.
Proof.
  rewrite completedSubSubtasks_filter.
  induction l as [|x l IH]; [reflexivity|].
  rewrite filter_cons. cbn [forallb length].
  case_decide as Hx; [rewrite Hx | apply not_true_is_false in Hx; rewrite Hx]; simpl.
  - exact IH.
  - apply Nat.eqb_neq. pose proof (length_filter (fun s => ss_complete s = true) l). lia.
Qed.

Lemma effectiveComplete_alt (s : Subtask) :
  Spec.effectiveComplete s
  = if hasSubSubtasks s then allSubSubtasksComplete (default [] (st_subSubtasks s))
    else st_complete s.
Proof.
  unfold Spec.effectiveComplete, hasSubSubtasks.
  destruct (st_subSubtasks s) as [[|x l]|]; try reflexivity.
  now rewrite allSubSubtasksComplete_forallb.
Qed.

Lemma countSubtask_step (acc : Counters) (s : Subtask) :
  countSubtask acc s = (S (fst acc), (snd acc + bump (Spec.effectiveComplete s))%nat).
Proof.
  destruct acc as [t c]. unfold countSubtask. rewrite effectiveComplete_alt.
  destruct (hasSubSubtasks s);
    [destruct (allSubSubtasksComplete _) | destruct (st_complete s)];
    simpl; f_equal; lia.
Qed.

Lemma countSubtasks_fold (l : list Subtask) (acc : Counters) :
  fold_left countSubtask l acc
  = ((fst acc + length l)%nat,
     (snd acc + length (filter (fun s => Spec.effectiveComplete s = true) l))%nat).
Proof.
  revert acc. induction l as [|s l IH]; intros [t c]; cbn [fold_left].
  - simpl. f_equal; lia.
  - rewrite IH, countSubtask_step, filter_cons. cbn [fst snd].
    case_decide as Hx; [rewrite Hx | apply not_true_is_false in Hx; rewrite Hx];
      simpl; f_equal; lia.
Qed.

(** Look-up by name: the first entry with the name, in both wordings. *)
Lemma find_head_filter {A} (name : A -> string) (n : string) (l : list A) :
  List.find (fun s => String.eqb (name s) n) l = head (filter (fun s => name s = n) l).
Proof.
  induction l as [|x l IH]; [reflexivity|].
  simpl. rewrite filter_cons. destruct (String.eqb_spec (name x) n).
  - now rewrite decide_True.
  - now rewrite decide_False.
Qed.

Lemma sentInvoice_spec (task : Task) : sentInvoice task = Spec.sent task.
Proof.
  unfold sentInvoice, Spec.sent, Spec.subtaskNamed, findSubtask.
  rewrite find_head_filter. now destruct (head _).
Qed.

Lemma paidVia_spec (name : string) (task : Task) : paidVia name task = Spec.paid name task.
Proof.
  unfold paidVia, Spec.paid, Spec.subtaskNamed, findSubtask, findSubSubtask.
  rewrite find_head_filter. destruct (head _) as [s|]; [|reflexivity].
  destruct (st_subSubtasks s) as [l|]; simpl; [|reflexivity].
  rewrite find_head_filter. now destruct (head _).
Qed.

Lemma countTask_invoice (acc : Counters) (task : Task) :
  t_id task = "invoice" ->
  countTask acc task
  = ((fst acc + length (t_subtasks task))%nat, (snd acc + Spec.invoiceCompleted task)%nat).
Proof.
  intros Hid. destruct acc as [t c]. unfold countTask, Spec.invoiceCompleted.
  rewrite Hid. simpl String.eqb. cbv iota.
  unfold paidViaQuickbooks, paidViaCheck. rewrite sentInvoice_spec, !paidVia_spec.
  destruct (Spec.sent task); simpl; [|f_equal; lia].
  destruct (_ || _); simpl; f_equal; lia.
Qed.

Lemma countTask_standard (acc : Counters) (task : Task) :
  t_id task <> "invoice" ->
  countTask acc task
  = ((fst acc + length (t_subtasks task))%nat,
     (snd acc + length (filter (fun s => Spec.effectiveComplete s = true) (t_subtasks task)))%nat).
Proof.
  intros Hid. unfold countTask.
  destruct (String.eqb_spec (t_id task) "invoice"); [contradiction|].
  apply countSubtasks_fold.
Qed.

(** ** What the operations do to the state *)

Ltac unfold_eff :=
  unfold refreshAndSave, storeTask, saveTaskCompletionData, showNotification, setStatus,
    setTimeout, ensureTasks, tryCatch, bind, gets, modify, orTypeError, ret, throw in *.

Lemma refreshAndSave_rendered patientId ti counts s card :
  cards s !! patientId = Some card ->
  is_Some (card_items card !! ti) ->
  refreshAndSave patientId ti counts s = Returned tt (afterRefresh patientId ti counts card s).
Proof.
  intros Hc [st Hst]. unfold_eff. unfold showTaskStatus, showProgress, afterRefresh.
  rewrite Hc, Hst. cbn [cards setCards]. rewrite lookup_insert_eq.
  cbn [taskCompletionData setCards card_items]. rewrite insert_insert_eq.
  destruct (_ =? 100)%Z; unfold setSaved, addTimer, setCards; cbn; [reflexivity|].
  now rewrite app_nil_r.
Qed.

Lemma refreshAndSave_returned patientId ti counts s s' :
  refreshAndSave patientId ti counts s = Returned tt s' ->
  exists card, cards s !! patientId = Some card
               /\ is_Some (card_items card !! ti)
               /\ s' = afterRefresh patientId ti counts card s.
Proof.
  intros H.
  destruct (cards s !! patientId) as [card|] eqn:Hc.
  - destruct (card_items card !! ti) as [st|] eqn:Hst.
    + exists card. rewrite (refreshAndSave_rendered _ _ _ _ card) in H by eauto.
      injection H as <-. eauto.
    + unfold_eff. unfold showTaskStatus in H. rewrite Hc, Hst in H. discriminate.
  - unfold_eff. unfold showTaskStatus in H. rewrite Hc in H. discriminate.
Qed.

Lemma refreshAndSave_tcd patientId ti counts s :
  taskCompletionData (finalState (refreshAndSave patientId ti counts s)) = taskCompletionData s.
Proof.
  destruct (cards s !! patientId) as [card|] eqn:Hc.
  - destruct (card_items card !! ti) as [st|] eqn:Hst.
    + rewrite (refreshAndSave_rendered _ _ _ _ card) by eauto. reflexivity.
    + unfold_eff. unfold showTaskStatus. now rewrite Hc, Hst.
  - unfold_eff. unfold showTaskStatus. now rewrite Hc.
Qed.

Lemma toggleSubtask_found s patientId ti si tasks task subtask :
  taskCompletionData s !! patientId = Some tasks ->
  tasks !! ti = Some task ->
  t_subtasks task !! si = Some subtask ->
  toggleSubtask patientId ti si s
  = refreshAndSave patientId ti (recountDeep (toggledSubtask si subtask task))
      (written patientId ti (toggledSubtask si subtask task) s).
Proof.
  intros H1 H2 H3. unfold toggleSubtask, storeTask, bind, gets, modify, orTypeError, ret.
  now rewrite H1, H2, H3.
Qed.

Lemma toggleSubSubtask_found s patientId ti si ssi tasks task subtask leaves leaf :
  taskCompletionData s !! patientId = Some tasks ->
  tasks !! ti = Some task ->
  t_subtasks task !! si = Some subtask ->
  st_subSubtasks subtask = Some leaves ->
  leaves !! ssi = Some leaf ->
  let task' := writtenLeaf si ssi (setLeafComplete (negb (ss_complete leaf)) leaf) leaves subtask task in
  toggleSubSubtask patientId ti si ssi s
  = refreshAndSave patientId ti (recountFlat task') (written patientId ti task' s).
Proof.
  intros H1 H2 H3 H4 H5. unfold toggleSubSubtask, storeTask, bind, gets, modify, orTypeError, ret.
  now rewrite H1, H2, H3, H4, H5.
Qed.

Lemma updateSubSubtaskInput_found s patientId ti si ssi value tasks task subtask leaves leaf :
  taskCompletionData s !! patientId = Some tasks ->
  tasks !! ti = Some task ->
  t_subtasks task !! si = Some subtask ->
  st_subSubtasks subtask = Some leaves ->
  leaves !! ssi = Some leaf ->
  let task' := writtenLeaf si ssi (typedLeaf value leaf) leaves subtask task in
  updateSubSubtaskInput patientId ti si ssi value s
  = refreshAndSave patientId ti (recountFlat task') (written patientId ti task' s).
Proof.
  intros H1 H2 H3 H4 H5. unfold updateSubSubtaskInput, storeTask, bind, gets, modify, orTypeError, ret.
  now rewrite H1, H2, H3, H4, H5.
Qed.

(** A look-up that misses: the operation throws at once, nothing is
    written and nobody is told. *)
Lemma toggleSubtask_miss s patientId ti si :
  subtaskAt s patientId ti si = None ->
  toggleSubtask patientId ti si s = Threw TypeError s.
Proof.
  unfold subtaskAt, toggleSubtask, bind, gets, orTypeError, ret, throw. intros H.
  destruct (taskCompletionData s !! patientId) as [tasks|]; [|reflexivity].
  destruct (tasks !! ti) as [task|]; [|reflexivity].
  now rewrite H.
Qed.

Lemma toggleSubSubtask_miss s patientId ti si ssi :
  leafAt s patientId ti si ssi = None ->
  toggleSubSubtask patientId ti si ssi s = Threw TypeError s.
Proof.
  unfold leafAt, toggleSubSubtask, bind, gets, orTypeError, ret, throw. intros H.
  destruct (taskCompletionData s !! patientId) as [tasks|]; [|reflexivity].
  destruct (tasks !! ti) as [task|]; [|reflexivity].
  destruct (t_subtasks task !! si) as [subtask|]; [|reflexivity].
  destruct (st_subSubtasks subtask) as [leaves|]; [|reflexivity].
  now rewrite H.
Qed.

Lemma updateSubSubtaskInput_miss s patientId ti si ssi value :
  leafAt s patientId ti si ssi = None ->
  updateSubSubtaskInput patientId ti si ssi value s = Threw TypeError s.
Proof.
  unfold leafAt, updateSubSubtaskInput, bind, gets, orTypeError, ret, throw. intros H.
  destruct (taskCompletionData s !! patientId) as [tasks|]; [|reflexivity].
  destruct (tasks !! ti) as [task|]; [|reflexivity].
  destruct (t_subtasks task !! si) as [subtask|]; [|reflexivity].
  destruct (st_subSubtasks subtask) as [leaves|]; [|reflexivity].
  now rewrite H.
Qed.

Lemma alter_Some_insert {V} (f : V -> V) (m : gmap string V) (i : string) (x : V) :
  m !! i = Some x -> alter f i m = <[i := f x]> m.
Proof.
  intros H. apply map_eq. intros j. destruct (decide (i = j)) as [<-|Hne].
  - now rewrite lookup_alter_eq, lookup_insert_eq, H.
  - now rewrite lookup_alter_ne, lookup_insert_ne.
Qed.

Lemma subtaskAt_Some s patientId ti si subtask :
  subtaskAt s patientId ti si = Some subtask ->
  exists tasks task,
    taskCompletionData s !! patientId = Some tasks
    /\ tasks !! ti = Some task
    /\ t_subtasks task !! si = Some subtask.
Proof.
  unfold subtaskAt. intros H.
  destruct (taskCompletionData s !! patientId) as [tasks|] eqn:H1; [|discriminate].
  destruct (tasks !! ti) as [task|] eqn:H2; [|discriminate].
  exists tasks, task. auto.
Qed.

Lemma leafAt_Some s patientId ti si ssi leaf :
  leafAt s patientId ti si ssi = Some leaf ->
  exists tasks task subtask leaves,
    taskCompletionData s !! patientId = Some tasks
    /\ tasks !! ti = Some task
    /\ t_subtasks task !! si = Some subtask
    /\ st_subSubtasks subtask = Some leaves
    /\ leaves !! ssi = Some leaf.
Proof.
  unfold leafAt. intros H.
  destruct (taskCompletionData s !! patientId) as [tasks|] eqn:H1; [|discriminate].
  destruct (tasks !! ti) as [task|] eqn:H2; [|discriminate].
  destruct (t_subtasks task !! si) as [subtask|] eqn:H3; [|discriminate].
  destruct (st_subSubtasks subtask) as [leaves|] eqn:H4; [|discriminate].
  exists tasks, task, subtask, leaves. auto.
Qed.

Lemma written_tcd s patientId ti task tasks :
  taskCompletionData s !! patientId = Some tasks ->
  taskCompletionData (written patientId ti task s)
  = <[patientId := <[ti := task]> tasks]> (taskCompletionData s).
Proof. intros H. unfold written. cbn. now apply alter_Some_insert. Qed.

Lemma markAllTasksComplete_tcd s patientName now :
  taskCompletionData (finalState (markAllTasksComplete patientName now s)) = taskCompletionData s
  \/ exists patientId,
       taskCompletionData (finalState (markAllTasksComplete patientName now s))
       = <[patientId := completeAll (default initializePatientTasks
                                       (taskCompletionData s !! patientId))]>
           (taskCompletionData s).
Proof.
  unfold markAllTasksComplete. unfold_eff. cbn.
  destruct (findIndex _ _) as [[i patient]|]; cbn; [|now left].
  right. exists (patientIdOf patient now).
  destruct (taskCompletionData s !! patientIdOf patient now) as [tasks|] eqn:E; cbn.
  - now apply alter_Some_insert.
  - rewrite (alter_Some_insert _ _ _ initializePatientTasks) by apply lookup_insert_eq.
    now rewrite insert_insert_eq.
Qed.

Lemma run_TreeStep s op : TreeStep s op (taskCompletionData (finalState (run op s))).
Proof.
  destruct op as [pid|pid ti si|pid ti si ssi|pid ti si ssi v|n now]; cbn [run].
  - unfold ensureTasks, modify. cbn.
    destruct (taskCompletionData s !! pid) eqn:E; [constructor|].
    cbn. now constructor.
  - destruct (subtaskAt s pid ti si) as [subtask|] eqn:E.
    + apply subtaskAt_Some in E as (tasks & task & H1 & H2 & H3).
      rewrite (toggleSubtask_found _ _ _ _ _ _ _ H1 H2 H3), refreshAndSave_tcd,
        (written_tcd _ _ _ _ _ H1).
      now constructor.
    + rewrite toggleSubtask_miss by assumption. constructor.
  - destruct (leafAt s pid ti si ssi) as [leaf|] eqn:E.
    + apply leafAt_Some in E as (tasks & task & subtask & leaves & H1 & H2 & H3 & H4 & H5).
      rewrite (toggleSubSubtask_found _ _ _ _ _ _ _ _ _ _ H1 H2 H3 H4 H5), refreshAndSave_tcd,
        (written_tcd _ _ _ _ _ H1).
      now constructor.
    + rewrite toggleSubSubtask_miss by assumption. constructor.
  - destruct (leafAt s pid ti si ssi) as [leaf|] eqn:E.
    + apply leafAt_Some in E as (tasks & task & subtask & leaves & H1 & H2 & H3 & H4 & H5).
      rewrite (updateSubSubtaskInput_found _ _ _ _ _ v _ _ _ _ _ H1 H2 H3 H4 H5),
        refreshAndSave_tcd, (written_tcd _ _ _ _ _ H1).
      now constructor.
    + rewrite updateSubSubtaskInput_miss by assumption. constructor.
  - destruct (markAllTasksComplete_tcd s n now) as [->|[pid ->]]; constructor.
Qed.

(** An invariant of the task map holds in every reachable state once
    every write of an operation keeps it. *)
Lemma reachableBy_invariant (allowed : State -> Op -> Prop)
    (I : gmap string (list Task) -> Prop) :
  I ∅ ->
  (forall s op m', allowed s op -> I (taskCompletionData s) -> TreeStep s op m' -> I m') ->
  forall s, reachableBy allowed s -> I (taskCompletionData s).
Proof.
  intros H0 Hstep s Hs. induction Hs as [s E|s op _ IH Hop|s s' _ IH E].
  - now rewrite E.
  - eapply Hstep; eauto using run_TreeStep.
  - now rewrite E.
Qed.

(** ** Every stored tree is an instance of the template *)

Lemma map_insert_same {A B} (f : A -> B) (l : list A) (i : nat) (x y : A) :
  l !! i = Some x -> f y = f x -> map f (<[i := y]> l) = map f l.
Proof.
  revert i. induction l as [|a l IH]; intros [|i] Hl Hf; simpl in *; try discriminate.
  - injection Hl as ->. now rewrite Hf.
  - f_equal. now apply IH.
Qed.

Lemma subtaskShape_withLeaves subtask leaves i leaf leaf' :
  st_subSubtasks subtask = Some leaves ->
  leaves !! i = Some leaf ->
  leafShape leaf' = leafShape leaf ->
  subtaskShape (withLeaves (<[i := leaf']> leaves) subtask) = subtaskShape subtask.
Proof.
  intros H1 H2 H3. unfold subtaskShape, withLeaves. cbn. rewrite H1. cbn.
  now rewrite (map_insert_same _ _ _ leaf).
Qed.

Lemma taskShape_toggledSubtask si subtask task :
  t_subtasks task !! si = Some subtask ->
  taskShape (toggledSubtask si subtask task) = taskShape task.
Proof.
  intros H. unfold taskShape, toggledSubtask. cbn. f_equal.
  now apply (map_insert_same _ _ _ subtask).
Qed.

Lemma taskShape_writtenLeaf si ssi leaf leaf' leaves subtask task :
  t_subtasks task !! si = Some subtask ->
  st_subSubtasks subtask = Some leaves ->
  leaves !! ssi = Some leaf ->
  leafShape leaf' = leafShape leaf ->
  taskShape (writtenLeaf si ssi leaf' leaves subtask task) = taskShape task.
Proof.
  intros H1 H2 H3 H4. unfold taskShape, writtenLeaf. cbn. f_equal.
  apply (map_insert_same _ _ _ subtask); [assumption|].
  now apply (subtaskShape_withLeaves _ _ _ leaf).
Qed.

Lemma completeSubtask_shape subtask : subtaskShape (completeSubtask subtask) = subtaskShape subtask.
Proof.
  destruct subtask as [n c [l|] note]; unfold completeSubtask, subtaskShape; cbn;
    [|reflexivity].
  do 2 f_equal. rewrite map_map. now apply map_ext.
Qed.

Lemma completeAll_shape tasks : map taskShape (completeAll tasks) = map taskShape tasks.
Proof.
  unfold completeAll. rewrite map_map. apply map_ext. intros task.
  unfold taskShape. cbn. f_equal. rewrite map_map. apply map_ext, completeSubtask_shape.
Qed.

Lemma templateShaped_insert tasks ti task task' :
  templateShaped tasks -> tasks !! ti = Some task -> taskShape task' = taskShape task ->
  templateShaped (<[ti := task']> tasks).
Proof.
  unfold templateShaped. intros H1 H2 H3. now rewrite (map_insert_same _ _ _ task).
Qed.

Lemma templateShaped_step s op m' :
  wellShaped s -> TreeStep s op m' -> map_Forall (fun _ => templateShaped) m'.
Proof.
  intros Hs Hstep.
  destruct Hstep as [op|pid E|pid ti si tasks task subtask H1 H2 H3
                     |pid ti si ssi tasks task subtask leaves leaf H1 H2 H3 H4 H5
                     |pid ti si ssi v tasks task subtask leaves leaf H1 H2 H3 H4 H5
                     |n now pid].
  - exact Hs.
  - apply map_Forall_insert_2; [reflexivity | exact Hs].
  - apply map_Forall_insert_2; [|exact Hs].
    eapply templateShaped_insert; eauto using taskShape_toggledSubtask.
  - apply map_Forall_insert_2; [|exact Hs].
    eapply templateShaped_insert; eauto.
    now apply (taskShape_writtenLeaf _ _ leaf).
  - apply map_Forall_insert_2; [|exact Hs].
    eapply templateShaped_insert; eauto.
    now apply (taskShape_writtenLeaf _ _ leaf).
  - apply map_Forall_insert_2; [|exact Hs].
    unfold templateShaped. rewrite completeAll_shape.
    destruct (taskCompletionData s !! pid) as [tasks|] eqn:E; [exact (Hs _ _ E) | reflexivity].
Qed.

Lemma reachableBy_wellShaped allowed s : reachableBy allowed s -> wellShaped s.
Proof.
  intros Hs.
  apply (reachableBy_invariant allowed (map_Forall (fun _ => templateShaped))); [| |exact Hs].
  - apply map_Forall_empty.
  - intros s0 op m' _ H0 Hstep. now apply (templateShaped_step s0 op).
Qed.

(** Facts that only depend on the shape hold of every task of a shaped
    tree as soon as they hold of the template. *)
Lemma templateShaped_Forall (P : Task -> bool) tasks :
  (forall t, P (taskShape t) = P t) ->
  forallb P initializePatientTasks = true ->
  templateShaped tasks ->
  Forall (fun t => P t = true) tasks.
Proof.
  intros HP H0 Hs.
  assert (G : Forall (fun t => P t = true) (map taskShape tasks)).
  { rewrite Hs. apply List.Forall_forall. intros t Ht.
    apply in_map_iff in Ht as (t0 & <- & Ht0). rewrite HP.
    rewrite forallb_forall in H0. now apply H0. }
  apply List.Forall_forall. intros t Ht. rewrite <- HP.
  rewrite List.Forall_forall in G. apply G, in_map_iff. eauto.
Qed.

Lemma hasSubSubtasks_shape subtask : hasSubSubtasks (subtaskShape subtask) = hasSubSubtasks subtask.
Proof.
  destruct subtask as [n c [l|] note]; unfold hasSubSubtasks, subtaskShape; cbn;
    [|reflexivity].
  now rewrite length_map.
Qed.

Lemma groups_shape task : groups (taskShape task) = groups task.
Proof.
  unfold groups, taskShape. cbn. induction (t_subtasks task) as [|x l IH]; [reflexivity|].
  cbn. rewrite hasSubSubtasks_shape. destruct (hasSubSubtasks x); cbn; now rewrite IH.
Qed.

Lemma templateShaped_facts tasks :
  templateShaped tasks -> Forall (fun t => shapeFacts t = true) tasks.
Proof.
  apply templateShaped_Forall; [|reflexivity].
  intros t. unfold shapeFacts. rewrite groups_shape. unfold taskShape. cbn.
  now rewrite length_map.
Qed.

Lemma shaped_invoice_length tasks task :
  templateShaped tasks -> task ∈ tasks -> t_id task = "invoice" ->
  length (t_subtasks task) = 2%nat.
Proof.
  intros Hs Hin Hid. apply templateShaped_facts in Hs.
  rewrite List.Forall_forall in Hs. apply list_elem_of_In in Hin. specialize (Hs _ Hin).
  unfold shapeFacts in Hs. rewrite Hid in Hs. cbn in Hs.
  apply andb_true_iff in Hs as [Hs _]. now apply Nat.eqb_eq in Hs.
Qed.

Lemma shaped_groups tasks task :
  templateShaped tasks -> task ∈ tasks -> (groups task <= 1)%nat.
Proof.
  intros Hs Hin. apply templateShaped_facts in Hs.
  rewrite List.Forall_forall in Hs. apply list_elem_of_In in Hin. specialize (Hs _ Hin).
  unfold shapeFacts in Hs. apply andb_true_iff in Hs as [_ Hs]. now apply Nat.leb_le in Hs.
Qed.

(** ** Sample states *)

Lemma runAll_reachable allowed ops s :
  reachableBy allowed s ->
  Forall (fun _ => forall s' op, allowed s' op) ops ->
  reachableBy allowed (runAll ops s).
Proof.
  intros Hs Hall. revert s Hs. induction Hall as [|op ops Hop _ IH]; intros s Hs; [exact Hs|].
  cbn. apply IH. apply reachable_op; [exact Hs | apply Hop].
Qed.

Lemma startState_reachable allowed : reachableBy allowed startState.
Proof. now apply reachable_start. Qed.

Lemma paidState_reachable : reachable paidState.
Proof.
  apply runAll_reachable; [apply startState_reachable|].
  repeat constructor.
Qed.

(** ** C1: the invoice task *)

(** C1. In every stored task tree the task with id 'invoice' adds exactly
    2 to the total of [calculateProgress], and to the completed items it
    adds 2 when 'Sent Invoice' is complete and one of 'Paid via Quickbooks'
    and 'Paid via Check' under 'Payment Received' is, 1 when 'Sent Invoice'
    is complete and neither payment is, and 0 when 'Sent Invoice' is
    incomplete, whatever the payment flags. *)
Theorem C1_invoice_contribution (s : State) (patientId : string)
    (tasks : list Task) (task : Task) (acc : Counters) :
  reachable s ->
  taskCompletionData s !! patientId = Some tasks ->
  task ∈ tasks ->
  t_id task = "invoice" ->
  countTask acc task = ((fst acc + 2)%nat, (snd acc + Spec.invoiceCompleted task)%nat)
  /\ (Spec.sent task = true ->
      Spec.paid "Paid via Quickbooks" task = true \/ Spec.paid "Paid via Check" task = true ->
      Spec.invoiceCompleted task = 2%nat)
  /\ (Spec.sent task = true ->
      Spec.paid "Paid via Quickbooks" task = false ->
      Spec.paid "Paid via Check" task = false ->
      Spec.invoiceCompleted task = 1%nat)
  /\ (Spec.sent task = false -> Spec.invoiceCompleted task = 0%nat).
Proof.
  intros Hs Hm Hin Hid. split; [|unfold Spec.invoiceCompleted; repeat split].
  - rewrite countTask_invoice by assumption.
    apply reachableBy_wellShaped in Hs.
    now rewrite (shaped_invoice_length tasks task (Hs _ _ Hm) Hin Hid).
  - intros -> [-> | ->]; [reflexivity|]. now rewrite orb_true_r.
  - now intros -> -> ->.
  - now intros ->.
Qed.

Lemma C1_invoice_contribution_witness :
  exists task,
    taskCompletionData paidState !! "p1" ≫= (.!! 1%nat) = Some task
    /\ countTask (2%nat, 0%nat) task = (4%nat, 2%nat).
Proof.
  eexists. split; [vm_compute; reflexivity|].
  refine (proj1 (C1_invoice_contribution paidState "p1" _ _ (2%nat, 0%nat)
                   paidState_reachable _ _ _)).
  - vm_compute. reflexivity.
  - apply (list_elem_of_lookup_2 _ 1%nat). vm_compute. reflexivity.
  - reflexivity.
Defined.

(** ** C2: the other tasks *)

(** C2. For a task whose id is not 'invoice', [calculateProgress] counts
    every subtask as one total item, and as one completed item exactly
    when either the subtask has a non-empty list of sub-subtasks that are
    all complete, or it has no sub-subtasks and its own flag is set. *)
Theorem C2_standard_task_counting (task : Task) (acc : Counters) :
  t_id task <> "invoice" ->
  countTask acc task
  = ((fst acc + length (t_subtasks task))%nat,
     (snd acc + length (filter (fun s => Spec.effectiveComplete s = true) (t_subtasks task)))%nat)
  /\ (forall subtask acc',
        countSubtask acc' subtask
        = (S (fst acc'), (snd acc' + bump (Spec.effectiveComplete subtask))%nat))
  /\ (forall subtask,
        Spec.effectiveComplete subtask = true <->
        (exists leaves, st_subSubtasks subtask = Some leaves /\ leaves <> []
                        /\ forall l, l ∈ leaves -> ss_complete l = true)
        \/ ((st_subSubtasks subtask = None \/ st_subSubtasks subtask = Some [])
            /\ st_complete subtask = true)).
Proof.
  intros Hid. split; [now apply countTask_standard|].
  split; [intros; apply countSubtask_step|].
  intros subtask. unfold Spec.effectiveComplete.
  destruct (st_subSubtasks subtask) as [[|x l]|].
  - split; [intros H; right; auto|]. intros [(leaves & E & Hne & _)|[_ H]]; [|exact H].
    injection E as <-. contradiction.
  - split.
    + intros H. left. exists (x :: l). repeat split; [discriminate|].
      intros y Hy. rewrite forallb_forall in H. apply H. now apply list_elem_of_In.
    + intros [(leaves & E & _ & H)|[[E|E] _]]; try discriminate.
      injection E as <-. apply forallb_forall. intros y Hy. apply H. now apply list_elem_of_In.
  - split; [intros H; right; auto|]. intros [(leaves & E & _)|[_ H]]; [discriminate|exact H].
Qed.

Lemma C2_standard_task_counting_witness :
  exists task,
    taskCompletionData paidState !! "p1" ≫= (.!! 0%nat) = Some task
    /\ countTask (0%nat, 0%nat) task = (2%nat, 0%nat).
Proof.
  eexists. split; [vm_compute; reflexivity|].
  refine (proj1 (C2_standard_task_counting _ (0%nat, 0%nat) _)).
  discriminate.
Defined.

(** ** C3: the auto-archive *)

Lemma autoArchivePatient_found s patientId today i patient :
  findIndex (hasId patientId) (activePatients s) = Some (i, patient) ->
  exists s',
    autoArchivePatient patientId today s = Returned tt s'
    /\ activePatients s' = delete i (activePatients s)
    /\ archivedPatients s' = (archivedPatients s ++ [archiveStamp today patient])%list
    /\ taskCompletionData s' = taskCompletionData s.
Proof.
  intros H. unfold autoArchivePatient. unfold_eff. cbn. rewrite H. cbn.
  eexists. split; [reflexivity|]. cbn. auto.
Qed.

Lemma mutation_returned s s' op patientId ti :
  mutates op patientId ti ->
  run op s = Returned tt s' ->
  exists task' card,
    s' = afterRefresh patientId ti (siteRecount op task') card (written patientId ti task' s).
Proof.
  intros Hop Hrun.
  destruct op as [pid|pid t si|pid t si ssi|pid t si ssi v|n now]; cbn in Hop;
    try contradiction; destruct Hop as [-> ->]; cbn [run] in Hrun; cbn [siteRecount].
  - destruct (subtaskAt s patientId ti si) as [subtask|] eqn:E;
      [|rewrite toggleSubtask_miss in Hrun by assumption; discriminate].
    apply subtaskAt_Some in E as (tasks & task & H1 & H2 & H3).
    rewrite (toggleSubtask_found _ _ _ _ _ _ _ H1 H2 H3) in Hrun.
    apply refreshAndSave_returned in Hrun as (card & _ & _ & ->). eauto.
  - destruct (leafAt s patientId ti si ssi) as [leaf|] eqn:E;
      [|rewrite toggleSubSubtask_miss in Hrun by assumption; discriminate].
    apply leafAt_Some in E as (tasks & task & subtask & leaves & H1 & H2 & H3 & H4 & H5).
    rewrite (toggleSubSubtask_found _ _ _ _ _ _ _ _ _ _ H1 H2 H3 H4 H5) in Hrun.
    apply refreshAndSave_returned in Hrun as (card & _ & _ & ->). eauto.
  - destruct (leafAt s patientId ti si ssi) as [leaf|] eqn:E;
      [|rewrite updateSubSubtaskInput_miss in Hrun by assumption; discriminate].
    apply leafAt_Some in E as (tasks & task & subtask & leaves & H1 & H2 & H3 & H4 & H5).
    rewrite (updateSubSubtaskInput_found _ _ _ _ _ v _ _ _ _ _ H1 H2 H3 H4 H5) in Hrun.
    apply refreshAndSave_returned in Hrun as (card & _ & _ & ->). eauto.
Qed.

Lemma markAllTasksComplete_timers s patientName now :
  let s' := finalState (markAllTasksComplete patientName now s) in
  (timers s' = timers s \/ timers s' = (timers s ++ [(1000%nat, LoadPatientTimelines)])%list)
  /\ activePatients s' = activePatients s
  /\ archivedPatients s' = archivedPatients s.
Proof.
  unfold markAllTasksComplete. unfold_eff. cbn.
  destruct (findIndex _ _) as [[i patient]|]; cbn; [|auto].
  destruct (taskCompletionData s !! patientIdOf patient now); cbn; auto.
Qed.

(** C3, as the code has it. When [toggleSubtask], [toggleSubSubtask] or
    [updateSubSubtaskInput] returns and leaves the patient's progress at
    100, a call of [autoArchivePatient] is handed to [setTimeout] with a
    delay of 1000 ms; that call, when the active collection holds a record
    with the patient's id, removes the first such record from the active
    collection and appends it to the archived collection, stamped with
    archive date, author and reason.  [markAllTasksComplete] schedules at
    most a reload of the timelines and moves no record. *)
Theorem C3_auto_archive_after_mutation (s s1 : State) (op : Op) (patientId : string) (ti : nat) :
  mutates op patientId ti ->
  run op s = Returned tt s1 ->
  calculateProgress (taskCompletionData s1) patientId = 100 ->
  timers s1 = (timers s ++ [(1000%nat, AutoArchivePatient patientId)])%list
  /\ (forall s2 today i patient,
        findIndex (hasId patientId) (activePatients s2) = Some (i, patient) ->
        exists s3,
          autoArchivePatient patientId today s2 = Returned tt s3
          /\ activePatients s3 = delete i (activePatients s2)
          /\ archivedPatients s3 = (archivedPatients s2 ++ [archiveStamp today patient])%list
          /\ archiveStamp today patient !! "archivedDate" = Some today
          /\ archiveStamp today patient !! "archivedBy" = Some "Auto-Archive (100% Complete)"
          /\ archiveStamp today patient !! "archivedReason" = Some "All tasks completed")
  /\ (forall s0 patientName now,
        let s' := finalState (markAllTasksComplete patientName now s0) in
        (timers s' = timers s0 \/ timers s' = (timers s0 ++ [(1000%nat, LoadPatientTimelines)])%list)
        /\ activePatients s' = activePatients s0
        /\ archivedPatients s' = archivedPatients s0).
Proof.
  intros Hop Hrun Hp. split; [|split].
  - destruct (mutation_returned _ _ _ _ _ Hop Hrun) as (task' & card & ->).
    unfold afterRefresh in *. cbn [taskCompletionData timers] in *. rewrite Hp.
    reflexivity.
  - intros s2 today i patient Hf.
    destruct (autoArchivePatient_found s2 patientId today i patient Hf)
      as (s3 & E & Ha & Hr & _).
    exists s3. repeat split; try assumption; unfold archiveStamp.
    + rewrite lookup_insert_ne by discriminate.
      rewrite lookup_insert_ne by discriminate. apply lookup_insert_eq.
    + rewrite lookup_insert_ne by discriminate. apply lookup_insert_eq.
    + apply lookup_insert_eq.
  - intros s0 patientName now. apply markAllTasksComplete_timers.
Qed.

Lemma C3_auto_archive_after_mutation_witness :
  timers doneState = (timers markedState ++ [(1000%nat, AutoArchivePatient "p1")])%list.
Proof.
  refine (proj1 (C3_auto_archive_after_mutation markedState doneState
                   (ToggleSubtask "p1" 0 0) "p1" 0 (conj eq_refl eq_refl) _ _)).
  - vm_compute. reflexivity.
  - vm_compute. reflexivity.
Defined.

(** C3, as stated, fails twice: after [markAllTasksComplete] has brought
    the progress to 100 no auto-archive is scheduled and the record stays
    active; and the auto-archive that [toggleSubtask] schedules moves the
    record but leaves the patient's entry in the task map, in memory and
    in [localStorage]. *)
Lemma C3_counterexample :
  (calculateProgress (taskCompletionData markedState) "p1" = 100
   /\ timers markedState = [(1000%nat, LoadPatientTimelines)]
   /\ activePatients markedState = [adam]
   /\ archivedPatients markedState = [])
  /\ (calculateProgress (taskCompletionData doneState) "p1" = 100
      /\ timers doneState
         = [(1000%nat, LoadPatientTimelines); (1000%nat, AutoArchivePatient "p1")]
      /\ activePatients archivedState = []
      /\ archivedPatients archivedState = [archiveStamp "11/2/2026" adam]
      /\ taskCompletionData archivedState !! "p1"
         = Some (<[0%nat := toggledSubtask 0
                             (completeSubtask (group "Written Request" [checkbox "Completed by Patient"]))
                             (mkTask "wr" "Send Adobe Forms"
                                (map completeSubtask
                                   [group "Written Request" [checkbox "Completed by Patient"];
                                    plain "Payment Schedule Form"]))]>
                   (completeAll initializePatientTasks))
      /\ savedTaskCompletionData archivedState !! "p1"
         = taskCompletionData archivedState !! "p1").
Proof.
  repeat split; vm_compute; reflexivity.
Qed.

(** ** C4: restoring an archived patient *)

Lemma restorePatient_found s (archivedIndex : Z) patient :
  (0 <= archivedIndex)%Z ->
  archivedPatients s !! Z.to_nat archivedIndex = Some patient ->
  exists s',
    restorePatient archivedIndex s = Returned tt s'
    /\ archivedPatients s' = delete (Z.to_nat archivedIndex) (archivedPatients s)
    /\ activePatients s'
       = (activePatients s ++ [delete "archivedBy" (delete "archivedDate" patient)])%list
    /\ taskCompletionData s' = taskCompletionData s.
Proof.
  intros H0 Hl. unfold restorePatient. unfold_eff. cbn.
  pose proof (lookup_lt_Some _ _ _ Hl) as Hlt.
  replace (0 <=? archivedIndex)%Z with true by (symmetry; apply Z.leb_le; lia).
  replace (archivedIndex <? Z.of_nat (length (archivedPatients s)))%Z with true
    by (symmetry; apply Z.ltb_lt; lia).
  cbn. rewrite Hl. cbn. eexists. split; [reflexivity|]. cbn. auto.
Qed.




(** ** C5: a look-up that misses *)

(** C5, at inputs the code mishandles. [markAllTasksComplete] on an
    unknown name shows a notice and changes nothing else; but the three
    other mutations, on an unknown patient id or an index out of range,
    throw a TypeError and show no notice. *)
Theorem C5_lookup_miss_throws :
  markAllTasksComplete "nobody" "1700000000000" viewedState
  = Returned tt
      (addNotice
         (Notification ("Patient " +:+ doubleQuote +:+ "nobody" +:+ doubleQuote
                          +:+ " not found in active patients") "error")
         viewedState)
  /\ toggleSubtask "patient-adam-jones-1700000000000" 0 0 viewedState
     = Threw TypeError viewedState
  /\ toggleSubSubtask "patient-adam-jones-1700000000000" 0 0 0 viewedState
     = Threw TypeError viewedState
  /\ updateSubSubtaskInput "patient-adam-jones-1700000000000" 2 0 0 "Dr. Who" viewedState
     = Threw TypeError viewedState
  /\ toggleSubtask "p1" 11 0 viewedState = Threw TypeError viewedState
  /\ toggleSubtask "p1" 0 2 viewedState = Threw TypeError viewedState
  /\ toggleSubSubtask "p1" 0 1 0 viewedState = Threw TypeError viewedState
  /\ updateSubSubtaskInput "p1" 2 0 2 "Dr. Who" viewedState = Threw TypeError viewedState.
Proof.
  split; [vm_compute; reflexivity|].
  repeat split;
    first [apply toggleSubtask_miss | apply toggleSubSubtask_miss
          | apply updateSubSubtaskInput_miss];
    vm_compute; reflexivity.
Qed.

(** ** C6: the status a mutation shows *)













(** Off its site the flat recount is not the rule: with the group flag of
    'Written Request' set by hand and its leaf open, the own flags count
    one subtask where the rule counts none.  No mutation recounts that
    tree this way: a leaf write first resets the flag of its group. *)
Example recountFlat_off_site :
  exists task,
    taskAt flaggedState "p1" 0 = Some task
    /\ statusOf (fst (recountFlat task)) (snd (recountFlat task)) = Partial
    /\ statusOf (fst (recountDeep task)) (snd (recountDeep task)) = NotStarted
    /\ Spec.taskStatus task = NotStarted.
Proof. eexists. repeat split; vm_compute; reflexivity. Qed.




(** ** C7: the flag of a free-text leaf *)











(** ** C8: typing into a free-text leaf *)

Lemma leafAt_writtenLeaf (s' : State) (m : gmap string (list Task))
    patientId ti si ssi tasks task subtask leaves leaf leaf' :
  tasks !! ti = Some task ->
  t_subtasks task !! si = Some subtask ->
  leaves !! ssi = Some leaf ->
  taskCompletionData s'
  = <[patientId := <[ti := writtenLeaf si ssi leaf' leaves subtask task]> tasks]> m ->
  leafAt s' patientId ti si ssi = Some leaf'.
Proof.
  intros H2 H3 H5 E. unfold leafAt. rewrite E, lookup_insert_eq.
  rewrite list_lookup_insert_eq by (eapply lookup_lt_Some; eauto).
  unfold writtenLeaf. cbn [t_subtasks setSubtasks].
  rewrite list_lookup_insert_eq by (eapply lookup_lt_Some; eauto).
  unfold withLeaves. cbn [st_subSubtasks setSubtaskComplete setSubSubtasks].
  apply list_lookup_insert_eq. eapply lookup_lt_Some; eauto.
Qed.

Lemma updateSubSubtaskInput_leaf s patientId ti si ssi value leaf :
  leafAt s patientId ti si ssi = Some leaf ->
  leafAt (finalState (updateSubSubtaskInput patientId ti si ssi value s)) patientId ti si ssi
  = Some (typedLeaf value leaf).
Proof.
  intros H. apply leafAt_Some in H as (tasks & task & subtask & leaves & H1 & H2 & H3 & H4 & H5).
  eapply leafAt_writtenLeaf; eauto.
  rewrite (updateSubSubtaskInput_found _ _ _ _ _ value _ _ _ _ _ H1 H2 H3 H4 H5),
    refreshAndSave_tcd.
  now apply written_tcd.
Qed.

Lemma updateSubSubtaskInput_returns s patientId ti si ssi value leaf card :
  leafAt s patientId ti si ssi = Some leaf ->
  cards s !! patientId = Some card ->
  is_Some (card_items card !! ti) ->
  exists s', updateSubSubtaskInput patientId ti si ssi value s = Returned tt s'.
Proof.
  intros H Hc Hi.
  apply leafAt_Some in H as (tasks & task & subtask & leaves & H1 & H2 & H3 & H4 & H5).
  rewrite (updateSubSubtaskInput_found _ _ _ _ _ value _ _ _ _ _ H1 H2 H3 H4 H5).
  eexists. now apply (refreshAndSave_rendered _ _ _ _ card).
Qed.

(** C8. [updateSubSubtaskInput] stores the string as the value of the
    leaf and sets the flag of the leaf to true exactly when the trimmed
    string is not empty, whatever the leaf held before; so typing any text
    and then the empty text leaves the leaf incomplete. *)
Theorem C8_input_value_and_flag (s : State) (patientId : string) (ti si ssi : nat)
    (value : string) (leaf : SubSubtask) :
  leafAt s patientId ti si ssi = Some leaf ->
  let s1 := finalState (updateSubSubtaskInput patientId ti si ssi value s) in
  let s2 := finalState (updateSubSubtaskInput patientId ti si ssi "" s1) in
  leafAt s1 patientId ti si ssi
  = Some (mkSubSubtask (ss_name leaf) (ss_type leaf) (Some value)
                       (0 <? String.length (JS.trim value))%nat)
  /\ leafAt s2 patientId ti si ssi
     = Some (mkSubSubtask (ss_name leaf) (ss_type leaf) (Some "") false)
  /\ (forall card,
        cards s !! patientId = Some card -> is_Some (card_items card !! ti) ->
        exists s', updateSubSubtaskInput patientId ti si ssi value s = Returned tt s').
Proof.
  intros H s1 s2.
  pose proof (updateSubSubtaskInput_leaf s patientId ti si ssi value leaf H) as H1.
  pose proof (updateSubSubtaskInput_leaf s1 patientId ti si ssi "" _ H1) as H2.
  split; [exact H1|]. split; [exact H2|].
  intros card Hc Hi. now apply (updateSubSubtaskInput_returns _ _ _ _ _ _ leaf card).
Qed.

Lemma C8_input_value_and_flag_witness :
  leafAt (finalState (updateSubSubtaskInput "p1" 2 0 0 "Dr. Who" viewedState)) "p1" 2 0 0
  = Some (mkSubSubtask "Hospice/Doctor Name" (Some "input") (Some "Dr. Who") true).
Proof.
  refine (proj1 (C8_input_value_and_flag viewedState "p1" 2 0 0 "Dr. Who"
                   (textInput "Hospice/Doctor Name") _)).
  vm_compute. reflexivity.
Defined.

(** ** C9: the percentage *)

Lemma countTask_total acc task :
  fst (countTask acc task) = (fst acc + length (t_subtasks task))%nat.
Proof.
  destruct (decide (t_id task = "invoice")) as [E|E].
  - now rewrite countTask_invoice.
  - now rewrite countTask_standard.
Qed.

Lemma countTask_completed_le acc task :
  shapeFacts task = true ->
  (snd (countTask acc task) <= snd acc + length (t_subtasks task))%nat.
Proof.
  intros Hf. destruct (decide (t_id task = "invoice")) as [E|E].
  - rewrite countTask_invoice by assumption. cbn [snd].
    unfold shapeFacts in Hf. rewrite E in Hf. cbn in Hf.
    apply andb_true_iff in Hf as [Hf _]. apply Nat.eqb_eq in Hf. rewrite Hf.
    unfold Spec.invoiceCompleted. destruct (_ && _); [lia|]. destruct (Spec.sent task); lia.
  - rewrite countTask_standard by assumption. cbn [snd].
    pose proof (length_filter (fun s => Spec.effectiveComplete s = true) (t_subtasks task)). lia.
Qed.

Lemma countTasks_fold_total tasks acc :
  fst (fold_left countTask tasks acc) = (fst acc + list_sum (sizes tasks))%nat.
Proof.
  revert acc. induction tasks as [|t tasks IH]; intros acc.
  - cbn. lia.
  - cbn [fold_left]. rewrite IH, countTask_total.
    change (sizes (t :: tasks)) with (length (t_subtasks t) :: sizes tasks).
    change (list_sum (length (t_subtasks t) :: sizes tasks))
      with (length (t_subtasks t) + list_sum (sizes tasks))%nat.
    lia.
Qed.

Lemma countTasks_fold_completed_le tasks acc :
  Forall (fun t => shapeFacts t = true) tasks ->
  (snd (fold_left countTask tasks acc) <= snd acc + list_sum (sizes tasks))%nat.
Proof.
  intros H. revert acc. induction H as [|t tasks Ht _ IH]; intros acc.
  - cbn. lia.
  - cbn [fold_left].
    specialize (IH (countTask acc t)). pose proof (countTask_completed_le acc t Ht).
    change (sizes (t :: tasks)) with (length (t_subtasks t) :: sizes tasks).
    change (list_sum (length (t_subtasks t) :: sizes tasks))
      with (length (t_subtasks t) + list_sum (sizes tasks))%nat.
    lia.
Qed.

Lemma sizes_shape tasks : sizes (map taskShape tasks) = sizes tasks.
Proof.
  unfold sizes. rewrite map_map. apply map_ext. intros t. cbn. apply length_map.
Qed.

(** A shaped tree has 23 items, of which at most 23 are complete. *)
Lemma shaped_counts tasks :
  templateShaped tasks ->
  exists c, countItems tasks = (23%nat, c) /\ (c <= 23)%nat.
Proof.
  intros Hs. unfold countItems.
  pose proof (countTasks_fold_total tasks (0%nat, 0%nat)) as Ht.
  pose proof (countTasks_fold_completed_le tasks (0%nat, 0%nat) (templateShaped_facts _ Hs)) as Hc.
  rewrite <- sizes_shape, Hs in Ht, Hc. cbn in Ht, Hc.
  destruct (fold_left countTask tasks (0%nat, 0%nat)) as [t c]. cbn in *. subst t.
  exists c. split; [reflexivity | lia].
Qed.

(** With 23 items the binary64 computation gives the exact rounding. *)
Lemma percentage_23 (c : nat) :
  (c <= 23)%nat ->
  percentage (23%nat, c) = Spec.roundPercent c 23 /\ 0 <= percentage (23%nat, c) <= 100.
Proof.
  intros H.
  do 24 (destruct c as [|c]; [vm_compute; repeat split; congruence|]).
  lia.
Qed.

(** C9. [calculateProgress] returns an integer between 0 and 100 that is
    100 * completedItems / totalItems rounded to the nearest integer, and
    it returns 0, without dividing, when there are no items or no tree. *)
Theorem C9_progress_is_rounded_percentage (s : State) (patientId : string) :
  reachable s ->
  0 <= calculateProgress (taskCompletionData s) patientId <= 100
  /\ (forall tasks,
        taskCompletionData s !! patientId = Some tasks ->
        calculateProgress (taskCompletionData s) patientId
        = Spec.roundPercent (snd (countItems tasks)) (fst (countItems tasks)))
  /\ (taskCompletionData s !! patientId = None ->
      calculateProgress (taskCompletionData s) patientId = 0)
  /\ (forall (m : gmap string (list Task)) tasks,
        m !! patientId = Some tasks ->
        fst (countItems tasks) = 0%nat ->
        calculateProgress m patientId = 0).
Proof.
  intros Hs. apply reachableBy_wellShaped in Hs.
  unfold calculateProgress.
  destruct (taskCompletionData s !! patientId) as [tasks|] eqn:E.
  - destruct (shaped_counts tasks (Hs _ _ E)) as (c & Hc & Hle).
    destruct (percentage_23 c Hle) as [Hp Hr].
    rewrite Hc. repeat split; try tauto.
    + intros tasks' [= <-]. now rewrite Hc.
    + discriminate.
    + intros m tasks' -> H0. destruct (countItems tasks') as [t c']. cbn in H0. now subst t.
  - repeat split; try lia; try discriminate.
    intros m tasks' -> H0. destruct (countItems tasks') as [t c']. cbn in H0. now subst t.
Qed.

Lemma C9_progress_is_rounded_percentage_witness :
  calculateProgress (taskCompletionData paidState) "p1" = 9
  /\ 0 <= calculateProgress (taskCompletionData paidState) "p1" <= 100.
Proof.
  split; [vm_compute; reflexivity|].
  exact (proj1 (C9_progress_is_rounded_percentage paidState "p1" paidState_reachable)).
Defined.

(** ** C10: the own flag of a subtask with sub-subtasks *)

Lemma countSubtask_flag_ignored acc b subtask :
  hasSubSubtasks subtask = true ->
  countSubtask acc (setSubtaskComplete b subtask) = countSubtask acc subtask.
Proof.
  intros H. unfold countSubtask.
  replace (hasSubSubtasks (setSubtaskComplete b subtask)) with true by (symmetry; exact H).
  now rewrite H.
Qed.

Lemma countTask_flag_ignored acc b si subtask task :
  t_id task <> "invoice" ->
  t_subtasks task !! si = Some subtask ->
  hasSubSubtasks subtask = true ->
  countTask acc (setSubtasks (<[si := setSubtaskComplete b subtask]> (t_subtasks task)) task)
  = countTask acc task.
Proof.
  intros Hid Hsi Hg. unfold countTask. cbn [t_id setSubtasks t_subtasks].
  destruct (String.eqb_spec (t_id task) "invoice"); [contradiction|].
  apply (fold_left_insert_same _ _ _ subtask); [assumption|].
  intros acc'. now apply countSubtask_flag_ignored.
Qed.

Lemma calculateProgress_insert_same (m : gmap string (list Task)) patientId tasks tasks' q :
  m !! patientId = Some tasks ->
  countItems tasks' = countItems tasks ->
  calculateProgress (<[patientId := tasks']> m) q = calculateProgress m q.
Proof.
  intros Hm Hc. unfold calculateProgress. destruct (decide (patientId = q)) as [<-|Hne].
  - now rewrite lookup_insert_eq, Hm, Hc.
  - now rewrite lookup_insert_ne.
Qed.

(** C10. For a task other than the invoice and a subtask of it with a
    non-empty list of sub-subtasks, [calculateProgress] does not depend on
    the subtask's own flag: two trees that differ in that flag only have
    the same percentage, and [toggleSubtask] on that subtask, which flips
    that flag only, leaves every percentage as it was. *)
Theorem C10_group_flag_ignored (s : State) (patientId : string) (ti si : nat)
    (tasks : list Task) (task : Task) (subtask : Subtask) :
  taskCompletionData s !! patientId = Some tasks ->
  tasks !! ti = Some task ->
  t_id task <> "invoice" ->
  t_subtasks task !! si = Some subtask ->
  hasSubSubtasks subtask = true ->
  let flagged b := setSubtasks (<[si := setSubtaskComplete b subtask]> (t_subtasks task)) task in
  let s' := finalState (toggleSubtask patientId ti si s) in
  (forall b q,
      calculateProgress (<[patientId := <[ti := flagged b]> tasks]> (taskCompletionData s)) q
      = calculateProgress (taskCompletionData s) q)
  /\ taskCompletionData s'
     = <[patientId := <[ti := flagged (negb (st_complete subtask))]> tasks]> (taskCompletionData s)
  /\ (forall q, calculateProgress (taskCompletionData s') q
                = calculateProgress (taskCompletionData s) q).
Proof.
  intros Hm Hti Hid Hsi Hg flagged s'.
  assert (G : forall b q,
      calculateProgress (<[patientId := <[ti := flagged b]> tasks]> (taskCompletionData s)) q
      = calculateProgress (taskCompletionData s) q).
  { intros b q. apply (calculateProgress_insert_same _ _ tasks); [assumption|].
    unfold countItems. apply (fold_left_insert_same _ _ _ task); [assumption|].
    intros acc. now apply countTask_flag_ignored. }
  assert (E : taskCompletionData s'
              = <[patientId := <[ti := flagged (negb (st_complete subtask))]> tasks]>
                  (taskCompletionData s)).
  { subst s'. rewrite (toggleSubtask_found _ _ _ _ _ _ _ Hm Hti Hsi), refreshAndSave_tcd.
    now rewrite (written_tcd _ _ _ _ _ Hm). }
  split; [exact G|]. split; [exact E|]. intros q. rewrite E. apply G.
Qed.

Lemma C10_group_flag_ignored_witness :
  calculateProgress (taskCompletionData (finalState (toggleSubtask "p1" 0 0 paidState))) "p1"
  = calculateProgress (taskCompletionData paidState) "p1".
Proof.
  refine (proj2 (proj2 (C10_group_flag_ignored paidState "p1" 0 0 _ _ _ _ _ _ _ _)) "p1").
  - vm_compute. reflexivity.
  - reflexivity.
  - discriminate.
  - reflexivity.
  - reflexivity.
Defined.

(** * Further properties *)

(** ** The manual archive *)

Lemma archivePatient_invalid s (i : Z) today now :
  (i < 0 \/ Z.of_nat (length (activePatients s)) <= i)%Z ->
  archivePatient i today now s
  = Returned tt (addNotice (Notification "Invalid patient index" "error") s).
Proof.
  intros H. unfold archivePatient. unfold_eff. cbn.
  replace ((0 <=? i)%Z && (i <? Z.of_nat (length (activePatients s)))%Z) with false;
    [reflexivity|].
  symmetry. apply andb_false_iff. destruct H; [left; apply Z.leb_gt | right; apply Z.ltb_ge]; lia.
Qed.

Lemma valid_index_test (i : Z) {A} (l : list A) x :
  (0 <= i)%Z -> l !! Z.to_nat i = Some x ->
  (0 <=? i)%Z && (i <? Z.of_nat (length l))%Z = true.
Proof.
  intros H0 Hl. pose proof (lookup_lt_Some _ _ _ Hl).
  apply andb_true_iff. split; [apply Z.leb_le | apply Z.ltb_lt]; lia.
Qed.

Lemma archivePatient_last s (i : Z) today now patient :
  (0 <= i)%Z ->
  activePatients s !! Z.to_nat i = Some patient ->
  activePatients s !! S (Z.to_nat i) = None ->
  archivePatient i today now s
  = Returned tt
      (addNotice (Notification "Failed to archive patient. Please try again." "error")
         (setArchivedPatients (archivedPatients s ++ [systemStamp today patient])%list
            (setActivePatients (delete (Z.to_nat i) (activePatients s)) s))).
Proof.
  intros H0 Hl Hn. unfold archivePatient. unfold_eff. cbn.
  rewrite (valid_index_test i _ patient H0 Hl), Hl. cbn.
  rewrite list_lookup_delete_ge by lia. rewrite Hn. reflexivity.
Qed.

Lemma archivePatient_inner s (i : Z) today now patient next :
  (0 <= i)%Z ->
  activePatients s !! Z.to_nat i = Some patient ->
  activePatients s !! S (Z.to_nat i) = Some next ->
  archivePatient i today now s
  = Returned tt
      (addTimer (1000%nat, LoadPatientTimelines)
         (addNotice (Notification ("Patient " +:+ orElse (systemStamp today patient !! "Patient Name") "Unknown"
                                     +:+ " archived successfully!") "success")
            (setTaskCompletionData (delete (patientIdOf next now) (taskCompletionData s))
               (setArchivedPatients (archivedPatients s ++ [systemStamp today patient])%list
                  (setActivePatients (delete (Z.to_nat i) (activePatients s)) s))))).
Proof.
  intros H0 Hl Hn. unfold archivePatient. unfold_eff. cbn.
  rewrite (valid_index_test i _ patient H0 Hl), Hl. cbn.
  rewrite list_lookup_delete_ge by lia. rewrite Hn. cbn.
  destruct (taskCompletionData s !! patientIdOf next now) eqn:E; cbn; [reflexivity|].
  unfold setTaskCompletionData. cbn. now rewrite delete_id.
Qed.

(** X1. [archivePatient] with an index below 0 or past the end of the
    active collection shows the notice 'Invalid patient index' and changes
    nothing else. *)
Theorem X1_archivePatient_invalid_index (s : State) (i : Z) (today now : string) :
  (i < 0 \/ Z.of_nat (length (activePatients s)) <= i)%Z ->
  exists s',
    archivePatient i today now s = Returned tt s'
    /\ notices s' = (notices s ++ [Notification "Invalid patient index" "error"])%list
    /\ activePatients s' = activePatients s
    /\ archivedPatients s' = archivedPatients s
    /\ taskCompletionData s' = taskCompletionData s
    /\ savedTaskCompletionData s' = savedTaskCompletionData s
    /\ timers s' = timers s.
Proof.
  intros H. eexists. split; [now apply archivePatient_invalid|]. cbn. auto 10.
Qed.

Lemma X1_archivePatient_invalid_index_witness :
  exists s',
    archivePatient 1 "11/2/2026" "1700000000000" viewedState = Returned tt s'
    /\ activePatients s' = [adam].
Proof.
  destruct (X1_archivePatient_invalid_index viewedState 1 "11/2/2026" "1700000000000")
    as (s' & E & _ & Ha & _).
  - right. vm_compute. discriminate.
  - exists s'. split; [exact E|]. rewrite Ha. reflexivity.
Defined.

(** X2. [archivePatient] on the last record of the active collection
    moves the record, stamped with the date and 'System', to the archived
    collection, and then fails on the record that is no longer there: it
    shows 'Failed to archive patient. Please try again.', removes no task
    data and schedules no reload. *)
Theorem X2_archivePatient_last_record (s : State) (i : Z) (today now : string)
    (patient : Patient) :
  (0 <= i)%Z ->
  activePatients s !! Z.to_nat i = Some patient ->
  S (Z.to_nat i) = length (activePatients s) ->
  exists s',
    archivePatient i today now s = Returned tt s'
    /\ activePatients s' = delete (Z.to_nat i) (activePatients s)
    /\ archivedPatients s'
       = (archivedPatients s
            ++ [<["archivedBy" := "System"]> (<["archivedDate" := today]> patient)])%list
    /\ notices s'
       = (notices s ++ [Notification "Failed to archive patient. Please try again." "error"])%list
    /\ taskCompletionData s' = taskCompletionData s
    /\ timers s' = timers s.
Proof.
  intros H0 Hl Hlen. eexists. split.
  - apply (archivePatient_last _ _ _ _ patient); [assumption..|].
    apply lookup_ge_None. lia.
  - cbn. auto 10.
Qed.

Lemma X2_archivePatient_last_record_witness :
  exists s',
    archivePatient 1 "11/2/2026" "1700000000000" twoPatients = Returned tt s'
    /\ activePatients s' = [adam]
    /\ notices s' = [Notification "Failed to archive patient. Please try again." "error"].
Proof.
  destruct (X2_archivePatient_last_record twoPatients 1 "11/2/2026" "1700000000000" bob)
    as (s' & E & Ha & _ & Hn & _); [lia | reflexivity | reflexivity |].
  exists s'. split; [exact E|]. split; [rewrite Ha | rewrite Hn]; reflexivity.
Defined.

(** X3. [archivePatient] on a record that is followed by another one
    moves the record and reports success, and the task data it removes
    from the in-memory map is that of the following record, which stays
    active and so falls back to a progress of 0; the archived record's own
    tree is kept whenever the two ids differ, and the persisted copy of
    the map is not touched. *)
Theorem X3_archivePatient_removes_next_tree (s : State) (i : Z) (today now : string)
    (patient next : Patient) :
  (0 <= i)%Z ->
  activePatients s !! Z.to_nat i = Some patient ->
  activePatients s !! S (Z.to_nat i) = Some next ->
  exists s',
    archivePatient i today now s = Returned tt s'
    /\ activePatients s' = delete (Z.to_nat i) (activePatients s)
    /\ activePatients s' !! Z.to_nat i = Some next
    /\ archivedPatients s'
       = (archivedPatients s
            ++ [<["archivedBy" := "System"]> (<["archivedDate" := today]> patient)])%list
    /\ taskCompletionData s' = delete (patientIdOf next now) (taskCompletionData s)
    /\ calculateProgress (taskCompletionData s') (patientIdOf next now) = 0
    /\ (patientIdOf patient now <> patientIdOf next now ->
        taskCompletionData s' !! patientIdOf patient now
        = taskCompletionData s !! patientIdOf patient now)
    /\ savedTaskCompletionData s' = savedTaskCompletionData s
    /\ timers s' = (timers s ++ [(1000%nat, LoadPatientTimelines)])%list.
Proof.
  intros H0 Hl Hn. eexists. split; [now apply (archivePatient_inner _ _ _ _ patient next)|].
  cbn. repeat split.
  - rewrite list_lookup_delete_ge by lia. exact Hn.
  - unfold calculateProgress. now rewrite lookup_delete_eq.
  - intros Hne. now rewrite lookup_delete_ne.
Qed.

Lemma X3_archivePatient_removes_next_tree_witness :
  exists s',
    archivePatient 0 "11/2/2026" "1700000000000" twoPatients = Returned tt s'
    /\ calculateProgress (taskCompletionData twoPatients) "p2" = 4
    /\ calculateProgress (taskCompletionData s') "p2" = 0
    /\ taskCompletionData s' !! "p1" = Some initializePatientTasks.
Proof.
  destruct (X3_archivePatient_removes_next_tree twoPatients 0 "11/2/2026" "1700000000000"
              adam bob) as (s' & E & _ & _ & _ & _ & Hp & Hk & _);
    [lia | reflexivity | reflexivity |].
  exists s'. split; [exact E|]. split; [vm_compute; reflexivity|]. split; [exact Hp|].
  transitivity (taskCompletionData twoPatients !! "p1");
    [apply Hk; vm_compute; discriminate | vm_compute; reflexivity].
Defined.

(** ** No record is lost between the two collections *)

Lemma findIndex_lookup {A} (p : A -> bool) (l : list A) (i : nat) (x : A) :
  findIndex p l = Some (i, x) -> l !! i = Some x /\ p x = true.
Proof.
  revert i. induction l as [|a l IH]; intros i H; cbn in H; [discriminate|].
  destruct (p a) eqn:E.
  - injection H as <- <-. auto.
  - destruct (findIndex p l) as [[j y]|]; cbn in H; [|discriminate].
    injection H as <- <-. now apply IH.
Qed.

Lemma autoArchivePatient_notfound s patientId today :
  findIndex (hasId patientId) (activePatients s) = None ->
  autoArchivePatient patientId today s = Returned tt s.
Proof. intros H. unfold autoArchivePatient. unfold_eff. cbn. now rewrite H. Qed.

Lemma restorePatient_invalid s (i : Z) :
  (i < 0 \/ Z.of_nat (length (archivedPatients s)) <= i)%Z ->
  restorePatient i s
  = Returned tt (addNotice (Notification "Invalid patient index" "error") s).
Proof.
  intros H. unfold restorePatient. unfold_eff. cbn.
  replace ((0 <=? i)%Z && (i <? Z.of_nat (length (archivedPatients s)))%Z) with false;
    [reflexivity|].
  symmetry. apply andb_false_iff. destruct H; [left; apply Z.leb_gt | right; apply Z.ltb_ge]; lia.
Qed.

Lemma deleteArchivedPatient_found s (i : Z) patient :
  (0 <= i)%Z ->
  archivedPatients s !! Z.to_nat i = Some patient ->
  deleteArchivedPatient i true s
  = Returned tt
      (addTimer (1000%nat, LoadArchivedPatients)
         (addNotice (Notification ("Patient " +:+ orElse (patient !! "Patient Name") "Unknown"
                                     +:+ " permanently deleted!") "success")
            (setArchivedPatients (delete (Z.to_nat i) (archivedPatients s)) s))).
Proof.
  intros H0 Hl. unfold deleteArchivedPatient. unfold_eff. cbn.
  now rewrite (valid_index_test i _ patient H0 Hl), Hl.
Qed.

Lemma deleteArchivedPatient_invalid s (i : Z) :
  (i < 0 \/ Z.of_nat (length (archivedPatients s)) <= i)%Z ->
  deleteArchivedPatient i true s
  = Returned tt (addNotice (Notification "Invalid patient index" "error") s).
Proof.
  intros H. unfold deleteArchivedPatient. unfold_eff. cbn.
  replace ((0 <=? i)%Z && (i <? Z.of_nat (length (archivedPatients s)))%Z) with false;
    [reflexivity|].
  symmetry. apply andb_false_iff. destruct H; [left; apply Z.leb_gt | right; apply Z.ltb_ge]; lia.
Qed.

Lemma index_cases (i : Z) {A} (l : list A) :
  (i < 0 \/ Z.of_nat (length l) <= i)%Z
  \/ ((0 <= i)%Z /\ exists x, l !! Z.to_nat i = Some x).
Proof.
  destruct (decide (0 <= i < Z.of_nat (length l))%Z) as [H|H]; [right | left; lia].
  split; [lia|]. apply lookup_lt_is_Some. lia.
Qed.

Lemma moved_lengths {A} (l k : list A) (i : nat) (x y : A) :
  l !! i = Some x ->
  (length (delete i l) + length (k ++ [y]) = length l + length k)%nat.
Proof.
  intros H. rewrite length_delete by eauto. rewrite length_app. cbn.
  pose proof (lookup_lt_Some _ _ _ H). lia.
Qed.

(** X4. The archive transitions lose and duplicate no record: whatever
    their arguments and whether they succeed, [archivePatient],
    [autoArchivePatient] and [restorePatient] leave the number of records
    in the active and archived collections together unchanged;
    [deleteArchivedPatient] never touches the active collection and
    removes exactly one archived record when the dialog is confirmed and
    the index is valid, and none otherwise. *)
Theorem X4_records_conserved (s : State) :
  (forall i today now, records (finalState (archivePatient i today now s)) = records s)
  /\ (forall patientId today,
        records (finalState (autoArchivePatient patientId today s)) = records s)
  /\ (forall i, records (finalState (restorePatient i s)) = records s)
  /\ (forall i confirmed,
        let s' := finalState (deleteArchivedPatient i confirmed s) in
        activePatients s' = activePatients s
        /\ length (archivedPatients s')
           = (length (archivedPatients s)
              - (if confirmed && (0 <=? i)%Z && (i <? Z.of_nat (length (archivedPatients s)))%Z
                 then 1 else 0))%nat).
Proof.
  unfold records. repeat split.
  - intros i today now.
    destruct (index_cases i (activePatients s)) as [H|[H0 [patient Hl]]].
    + now rewrite archivePatient_invalid.
    + destruct (activePatients s !! S (Z.to_nat i)) as [next|] eqn:Hn.
      * rewrite (archivePatient_inner _ _ _ _ patient next) by assumption. cbn.
        now apply moved_lengths with patient.
      * rewrite (archivePatient_last _ _ _ _ patient) by assumption. cbn.
        now apply moved_lengths with patient.
  - intros patientId today.
    destruct (findIndex (hasId patientId) (activePatients s)) as [[i patient]|] eqn:E.
    + destruct (autoArchivePatient_found s patientId today i patient E)
        as (s' & E' & Ha & Hr & _). rewrite E'. cbn. rewrite Ha, Hr.
      apply moved_lengths with patient. now apply findIndex_lookup in E.
    + now rewrite autoArchivePatient_notfound.
  - intros i.
    destruct (index_cases i (archivedPatients s)) as [H|[H0 [patient Hl]]].
    + now rewrite restorePatient_invalid.
    + destruct (restorePatient_found s i patient H0 Hl) as (s' & E' & Hr & Ha & _).
      rewrite E'. cbn. rewrite Ha, Hr.
      pose proof (moved_lengths (archivedPatients s) (activePatients s) _ patient
                    (delete "archivedBy" (delete "archivedDate" patient)) Hl). lia.
  - destruct confirmed; [|reflexivity].
    destruct (index_cases i (archivedPatients s)) as [H|[H0 [patient Hl]]].
    + now rewrite deleteArchivedPatient_invalid.
    + now rewrite (deleteArchivedPatient_found _ _ patient).
  - destruct confirmed; cbn [andb]; [|cbn; lia].
    destruct (index_cases i (archivedPatients s)) as [H|[H0 [patient Hl]]].
    + rewrite deleteArchivedPatient_invalid by assumption. cbn.
      replace ((0 <=? i)%Z && (i <? Z.of_nat (length (archivedPatients s)))%Z) with false; [lia|].
      symmetry. apply andb_false_iff.
      destruct H; [left; apply Z.leb_gt | right; apply Z.ltb_ge]; lia.
    + rewrite (deleteArchivedPatient_found _ _ patient) by assumption. cbn.
      rewrite (valid_index_test i _ patient H0 Hl). apply length_delete. eauto.
Qed.

(** ** Archive, then restore *)

Lemma unstamp_system today (patient : Patient) :
  delete "archivedBy" (delete "archivedDate" (systemStamp today patient))
  = delete "archivedBy" (delete "archivedDate" patient).
Proof.
  unfold systemStamp.
  rewrite (delete_insert_ne _ "archivedDate" "archivedBy") by discriminate.
  now rewrite delete_insert_eq, delete_insert_eq.
Qed.

Lemma unstamp_auto today (patient : Patient) :
  delete "archivedBy" (delete "archivedDate" (archiveStamp today patient))
  = <["archivedReason" := "All tasks completed"]>
      (delete "archivedBy" (delete "archivedDate" patient)).
Proof.
  unfold archiveStamp.
  rewrite (delete_insert_ne _ "archivedDate" "archivedReason") by discriminate.
  rewrite (delete_insert_ne _ "archivedDate" "archivedBy") by discriminate.
  rewrite delete_insert_eq.
  rewrite (delete_insert_ne _ "archivedBy" "archivedReason") by discriminate.
  now rewrite delete_insert_eq.
Qed.

Lemma restore_last_archived s patient :
  let i := Z.of_nat (length (archivedPatients s)) in
  forall s1,
    archivedPatients s1 = (archivedPatients s ++ [patient])%list ->
    exists s2,
      restorePatient i s1 = Returned tt s2
      /\ archivedPatients s2 = archivedPatients s
      /\ activePatients s2
         = (activePatients s1 ++ [delete "archivedBy" (delete "archivedDate" patient)])%list
      /\ taskCompletionData s2 = taskCompletionData s1.
Proof.
  intros i s1 Ha.
  assert (Hl : archivedPatients s1 !! Z.to_nat i = Some patient).
  { subst i. rewrite Nat2Z.id, Ha. apply list_lookup_middle. reflexivity. }
  destruct (restorePatient_found s1 i patient ltac:(lia) Hl) as (s2 & E & Hr & Hact & Ht).
  exists s2. repeat split; try assumption.
  rewrite Hr, Ha. subst i. rewrite Nat2Z.id.
  rewrite (delete_middle (archivedPatients s) [] patient). apply app_nil_r.
Qed.

(** X5. Archiving a record by hand and restoring the record that was
    just archived brings it back unchanged, at the end of the active
    collection, when it carried no archive date or author before; the
    archived collection is as it was.  This holds also for the last
    record, for which [archivePatient] reports a failure. *)
Theorem X5_archive_then_restore (s : State) (i : Z) (today now : string) (patient : Patient) :
  (0 <= i)%Z ->
  activePatients s !! Z.to_nat i = Some patient ->
  patient !! "archivedDate" = None ->
  patient !! "archivedBy" = None ->
  let s1 := finalState (archivePatient i today now s) in
  let s2 := finalState (restorePatient (Z.of_nat (length (archivedPatients s))) s1) in
  activePatients s2 = (delete (Z.to_nat i) (activePatients s) ++ [patient])%list
  /\ archivedPatients s2 = archivedPatients s.
Proof.
  intros H0 Hl Hd Hb s1 s2.
  assert (H1 : activePatients s1 = delete (Z.to_nat i) (activePatients s)
               /\ archivedPatients s1 = (archivedPatients s ++ [systemStamp today patient])%list).
  { subst s1. destruct (activePatients s !! S (Z.to_nat i)) as [next|] eqn:Hn.
    - rewrite (archivePatient_inner _ _ _ _ patient next) by assumption. cbn. auto.
    - rewrite (archivePatient_last _ _ _ _ patient) by assumption. cbn. auto. }
  destruct H1 as [Ha Hr].
  destruct (restore_last_archived s (systemStamp today patient) s1 Hr)
    as (s2' & E & Hr2 & Ha2 & _).
  subst s2. rewrite E. cbn. split; [|exact Hr2].
  rewrite Ha2, Ha, unstamp_system.
  rewrite (delete_id _ "archivedDate") by assumption.
  now rewrite delete_id.
Qed.

Lemma X5_archive_then_restore_witness :
  activePatients
    (finalState (restorePatient 0 (finalState (archivePatient 0 "11/2/2026" "1700000000000" twoPatients))))
  = [bob; adam].
Proof.
  refine (proj1 (X5_archive_then_restore twoPatients 0 "11/2/2026" "1700000000000" adam
                   _ _ _ _)); [lia | reflexivity | reflexivity | reflexivity].
Defined.

(** X6. Restoring a record that [autoArchivePatient] has just archived
    brings it back without archive date and author but still marked with
    the archive reason 'All tasks completed'; the task map is not touched
    on the way, so the record is active again with the progress it was
    archived with. *)
Theorem X6_auto_archive_then_restore (s : State) (patientId today : string) (i : nat)
    (patient : Patient) :
  findIndex (hasId patientId) (activePatients s) = Some (i, patient) ->
  let s1 := finalState (autoArchivePatient patientId today s) in
  let s2 := finalState (restorePatient (Z.of_nat (length (archivedPatients s))) s1) in
  let restored := <["archivedReason" := "All tasks completed"]>
                    (delete "archivedBy" (delete "archivedDate" patient)) in
  activePatients s2 = (delete i (activePatients s) ++ [restored])%list
  /\ archivedPatients s2 = archivedPatients s
  /\ restored !! "archivedReason" = Some "All tasks completed"
  /\ restored !! "archivedDate" = None
  /\ restored !! "archivedBy" = None
  /\ restored !! "id" = Some patientId
  /\ taskCompletionData s2 = taskCompletionData s
  /\ calculateProgress (taskCompletionData s2) patientId
     = calculateProgress (taskCompletionData s) patientId.
Proof.
  intros Hf s1 s2 restored.
  destruct (autoArchivePatient_found s patientId today i patient Hf) as (s1' & E1 & Ha & Hr & Ht).
  assert (Es1 : s1 = s1') by (subst s1; now rewrite E1).
  destruct (restore_last_archived s (archiveStamp today patient) s1)
    as (s2' & E2 & Hr2 & Ha2 & Ht2); [now rewrite Es1|].
  assert (Es2 : s2 = s2') by (subst s2; now rewrite E2).
  assert (Hm : taskCompletionData s2 = taskCompletionData s)
    by now rewrite Es2, Ht2, Es1.
  repeat split.
  - now rewrite Es2, Ha2, Es1, Ha, unstamp_auto.
  - now rewrite Es2.
  - subst restored. apply lookup_insert_eq.
  - subst restored. rewrite lookup_insert_ne by discriminate.
    rewrite lookup_delete_ne by discriminate. apply lookup_delete_eq.
  - subst restored. rewrite lookup_insert_ne by discriminate. apply lookup_delete_eq.
  - subst restored. rewrite lookup_insert_ne by discriminate.
    rewrite !lookup_delete_ne by discriminate.
    apply findIndex_lookup in Hf as [_ Hid]. unfold hasId in Hid.
    now apply bool_decide_eq_true_1 in Hid.
  - exact Hm.
  - now rewrite Hm.
Qed.

Lemma X6_auto_archive_then_restore_witness :
  activePatients (finalState (restorePatient 0 (finalState (autoArchivePatient "p1" "11/2/2026" doneState))))
  = [<["archivedReason" := "All tasks completed"]> (delete "archivedBy" (delete "archivedDate" adam))]
  /\ calculateProgress
       (taskCompletionData
          (finalState (restorePatient 0 (finalState (autoArchivePatient "p1" "11/2/2026" doneState)))))
       "p1" = 100.
Proof.
  destruct (X6_auto_archive_then_restore doneState "p1" "11/2/2026" 0 adam)
    as (Ha & _ & _ & _ & _ & _ & _ & Hp); [vm_compute; reflexivity|].
  split; [exact Ha|]. etransitivity; [exact Hp|]. vm_compute. reflexivity.
Defined.

(** ** The refresh of the statuses *)







(** ** The first rendering of the invoice *)

Lemma find_map_name {A} (name : A -> string) (f : A -> A) (n : string) (l : list A) :
  (forall x, name (f x) = name x) ->
  List.find (fun s => String.eqb (name s) n) (map f l)
  = f <$> List.find (fun s => String.eqb (name s) n) l.
Proof.
  intros Hf. induction l as [|x l IH]; [reflexivity|].
  cbn. rewrite Hf. destruct (String.eqb (name x) n); [reflexivity | exact IH].
Qed.

Lemma findSubtask_shape_None name l :
  bool_decide (findSubtask name (map subtaskShape l) = None)
  = bool_decide (findSubtask name l = None).
Proof.
  unfold findSubtask. rewrite (find_map_name st_name subtaskShape) by reflexivity.
  destruct (List.find _ l); reflexivity.
Qed.

Lemma noPaidSubtask_shape task : noPaidSubtask (taskShape task) = noPaidSubtask task.
Proof.
  unfold noPaidSubtask, taskShape. cbn [t_id t_subtasks].
  now rewrite !findSubtask_shape_None.
Qed.

(** X8. In a reachable state the first rendering never shows the invoice
    as complete: it shows 'partial' when 'Sent Invoice' is ticked and
    'not-started' otherwise, whatever the payment leaves hold, because it
    looks for the payment among the subtasks.  So a sent and paid invoice,
    which the counting rule has complete, is first drawn as partial. *)
Theorem X8_first_rendering_of_invoice (s : State) (patientId : string)
    (tasks : list Task) (task : Task) :
  reachable s ->
  taskCompletionData s !! patientId = Some tasks ->
  task ∈ tasks ->
  t_id task = "invoice" ->
  initialStatus task = (if Spec.sent task then Partial else NotStarted)
  /\ initialStatus task <> Complete
  /\ (Spec.invoiceCompleted task = 2%nat ->
      initialStatus task = Partial /\ Spec.taskStatus task = Complete).
Proof.
  intros Hs Hm Hin Hid. apply reachableBy_wellShaped in Hs.
  assert (Hn : noPaidSubtask task = true).
  { pose proof (templateShaped_Forall noPaidSubtask tasks noPaidSubtask_shape eq_refl
                  (Hs _ _ Hm)) as Hf.
    rewrite List.Forall_forall in Hf. apply Hf. now apply list_elem_of_In. }
  unfold noPaidSubtask in Hn. rewrite Hid in Hn. cbn in Hn.
  apply andb_true_iff in Hn as [H1 H2].
  apply bool_decide_eq_true_1 in H1. apply bool_decide_eq_true_1 in H2.
  assert (E : initialStatus task = (if Spec.sent task then Partial else NotStarted)).
  { unfold initialStatus, subtaskFlag. rewrite Hid, H1, H2. cbn.
    rewrite <- sentInvoice_spec. unfold sentInvoice.
    destruct (findSubtask "Sent Invoice" (t_subtasks task)) as [x|]; [|reflexivity].
    destruct (st_complete x); reflexivity. }
  split; [exact E|]. split.
  - rewrite E. destruct (Spec.sent task); discriminate.
  - intros H2'. unfold Spec.taskStatus, Spec.taskItems.
    rewrite bool_decide_eq_true_2 by assumption. rewrite H2'. split; [|reflexivity].
    rewrite E. unfold Spec.invoiceCompleted in H2'.
    destruct (Spec.sent task); [reflexivity|]. cbn in H2'. discriminate.
Qed.

Lemma X8_first_rendering_of_invoice_witness :
  exists task,
    taskAt paidState "p1" 1 = Some task
    /\ initialStatus task = Partial
    /\ Spec.taskStatus task = Complete.
Proof.
  eexists. split; [vm_compute; reflexivity|].
  refine (proj2 (proj2 (X8_first_rendering_of_invoice paidState "p1" _ _
                          paidState_reachable _ _ _)) _).
  - vm_compute. reflexivity.
  - apply (list_elem_of_lookup_2 _ 1%nat). vm_compute. reflexivity.
  - reflexivity.
  - vm_compute. reflexivity.
Defined.

(** ** The ends of the percentage *)

Lemma percentage_23_ends (c : nat) :
  (c <= 23)%nat ->
  (percentage (23%nat, c) = 100 <-> c = 23%nat)
  /\ (percentage (23%nat, c) = 0 <-> c = 0%nat).
Proof.
  intros H.
  do 24 (destruct c as [|c];
         [vm_compute; repeat split; intros; (reflexivity || discriminate)|]).
  lia.
Qed.

Lemma progress_ends (s : State) (patientId : string) (tasks : list Task) :
  wellShaped s ->
  taskCompletionData s !! patientId = Some tasks ->
  (calculateProgress (taskCompletionData s) patientId = 100 <-> allComplete tasks)
  /\ (calculateProgress (taskCompletionData s) patientId = 0 <-> snd (countItems tasks) = 0%nat).
Proof.
  intros Hs Hm.
  destruct (shaped_counts tasks (Hs _ _ Hm)) as (c & Hc & Hle).
  unfold calculateProgress, allComplete. rewrite Hm, Hc. cbn [fst snd].
  now apply percentage_23_ends.
Qed.

(** X9. In a reachable state the progress of a stored tree is 100
    exactly when every item is complete, and 0 exactly when no item is:
    the rounding never shows 100 with an open item or 0 with a ticked one.
    So the export marks a patient 'Complete' exactly when every item is
    complete and 'Not Started' exactly when none is. *)
Theorem X9_progress_ends (s : State) (patientId : string) (tasks : list Task) :
  reachable s ->
  taskCompletionData s !! patientId = Some tasks ->
  let progress := calculateProgress (taskCompletionData s) patientId in
  (progress = 100 <-> allComplete tasks)
  /\ (progress = 0 <-> snd (countItems tasks) = 0%nat)
  /\ (exportStatus progress = "Complete" <-> allComplete tasks)
  /\ (exportStatus progress = "Not Started" <-> snd (countItems tasks) = 0%nat).
Proof.
  intros Hs Hm progress. apply reachableBy_wellShaped in Hs.
  destruct (progress_ends s patientId tasks Hs Hm) as [H100 H0]. fold progress in H100, H0.
  assert (Hr : 0 <= progress).
  { subst progress. unfold calculateProgress. rewrite Hm.
    destruct (shaped_counts tasks (Hs _ _ Hm)) as (c & -> & Hle).
    now apply percentage_23. }
  split; [exact H100|]. split; [exact H0|].
  unfold exportStatus. split.
  - rewrite <- H100. destruct (Z.eqb_spec progress 100) as [E|E].
    + tauto.
    + split; [|tauto]. destruct (0 <? progress)%Z; discriminate.
  - rewrite <- H0. destruct (Z.eqb_spec progress 100) as [E|E].
    + split; [discriminate | lia].
    + destruct (Z.ltb_spec 0 progress); split; try discriminate; try lia.
      reflexivity.
Qed.

Lemma X9_progress_ends_witness :
  calculateProgress (taskCompletionData markedState) "p1" = 100
  /\ exportedStatus markedState adam "1700000000000" = "Complete".
Proof.
  destruct (X9_progress_ends markedState "p1" (completeAll initializePatientTasks))
    as (H100 & _ & Hx & _).
  - apply runAll_reachable; [apply startState_reachable|]. repeat constructor.
  - vm_compute. reflexivity.
  - split; [apply H100 | apply Hx]; vm_compute; reflexivity.
Defined.

Lemma mutation_returned_stored s s1 op patientId ti :
  mutates op patientId ti ->
  run op s = Returned tt s1 ->
  is_Some (taskCompletionData s1 !! patientId).
Proof.
  intros Hop Hrun.
  assert (G : forall tasks task',
             taskCompletionData s !! patientId = Some tasks ->
             is_Some (taskCompletionData (written patientId ti task' s) !! patientId)).
  { intros tasks task' H1. rewrite (written_tcd _ _ _ _ _ H1), lookup_insert_eq. eauto. }
  destruct op as [pid|pid t si|pid t si ssi|pid t si ssi v|n now]; cbn in Hop;
    try contradiction; destruct Hop as [-> ->]; cbn [run] in Hrun.
  - destruct (subtaskAt s patientId ti si) as [subtask|] eqn:E;
      [|rewrite toggleSubtask_miss in Hrun by assumption; discriminate].
    apply subtaskAt_Some in E as (tasks & task & H1 & H2 & H3).
    rewrite (toggleSubtask_found _ _ _ _ _ _ _ H1 H2 H3) in Hrun.
    apply refreshAndSave_returned in Hrun as (card & _ & _ & ->).
    unfold afterRefresh. cbn [taskCompletionData]. now apply (G tasks).
  - destruct (leafAt s patientId ti si ssi) as [leaf|] eqn:E;
      [|rewrite toggleSubSubtask_miss in Hrun by assumption; discriminate].
    apply leafAt_Some in E as (tasks & task & subtask & leaves & H1 & H2 & H3 & H4 & H5).
    rewrite (toggleSubSubtask_found _ _ _ _ _ _ _ _ _ _ H1 H2 H3 H4 H5) in Hrun.
    apply refreshAndSave_returned in Hrun as (card & _ & _ & ->).
    unfold afterRefresh. cbn [taskCompletionData]. now apply (G tasks).
  - destruct (leafAt s patientId ti si ssi) as [leaf|] eqn:E;
      [|rewrite updateSubSubtaskInput_miss in Hrun by assumption; discriminate].
    apply leafAt_Some in E as (tasks & task & subtask & leaves & H1 & H2 & H3 & H4 & H5).
    rewrite (updateSubSubtaskInput_found _ _ _ _ _ v _ _ _ _ _ H1 H2 H3 H4 H5) in Hrun.
    apply refreshAndSave_returned in Hrun as (card & _ & _ & ->).
    unfold afterRefresh. cbn [taskCompletionData]. now apply (G tasks).
Qed.

(** X10. In a reachable state a mutation that returns schedules the
    auto-archive exactly when every item of the patient's tree is then
    complete; otherwise it schedules nothing.  No patient with an open
    item is handed to [autoArchivePatient]. *)
Theorem X10_auto_archive_only_when_complete (s s1 : State) (op : Op)
    (patientId : string) (ti : nat) :
  reachable s ->
  mutates op patientId ti ->
  run op s = Returned tt s1 ->
  exists tasks,
    taskCompletionData s1 !! patientId = Some tasks
    /\ (allComplete tasks ->
        timers s1 = (timers s ++ [(1000%nat, AutoArchivePatient patientId)])%list)
    /\ (~ allComplete tasks -> timers s1 = timers s).
Proof.
  intros Hs Hop Hrun.
  assert (Hs1 : wellShaped s1).
  { apply (reachableBy_wellShaped (fun _ _ => True)).
    replace s1 with (finalState (run op s)) by now rewrite Hrun.
    now apply reachable_op. }
  destruct (mutation_returned_stored s s1 op patientId ti Hop Hrun) as (tasks & Hm).
  exists tasks. split; [exact Hm|].
  destruct (progress_ends s1 patientId tasks Hs1 Hm) as [H100 _].
  destruct (mutation_returned _ _ _ _ _ Hop Hrun) as (task' & card & E).
  assert (Et : timers s1
               = (timers s ++ (if (calculateProgress (taskCompletionData s1) patientId =? 100)%Z
                               then [(1000%nat, AutoArchivePatient patientId)] else []))%list).
  { rewrite E. unfold afterRefresh. cbn [taskCompletionData timers]. reflexivity. }
  split.
  - intros Hall. rewrite Et. apply H100 in Hall. now rewrite Hall.
  - intros Hnot. rewrite Et.
    destruct (Z.eqb_spec (calculateProgress (taskCompletionData s1) patientId) 100) as [E'|E'].
    + apply H100 in E'. contradiction.
    + apply app_nil_r.
Qed.

Lemma X10_auto_archive_only_when_complete_witness :
  exists s1,
    run (ToggleSubtask "p1" 8 0) viewedState = Returned tt s1
    /\ timers s1 = timers viewedState.
Proof.
  destruct (run (ToggleSubtask "p1" 8 0) viewedState) as [[] s1|] eqn:E;
    [|vm_compute in E; discriminate E].
  exists s1. split; [reflexivity|].
  destruct (X10_auto_archive_only_when_complete viewedState s1 (ToggleSubtask "p1" 8 0) "p1" 8)
    as (tasks & Hm & _ & Hno); [|split; reflexivity|exact E|].
  - apply runAll_reachable; [apply startState_reachable|]. repeat constructor.
  - apply Hno. intros Hall.
    assert (Es : s1 = finalState (run (ToggleSubtask "p1" 8 0) viewedState)) by now rewrite E.
    rewrite Es in Hm. vm_compute in Hm. injection Hm as <-.
    vm_compute in Hall. discriminate Hall.
Defined.

(** ** Marking everything complete *)












(** ** Doing a mutation twice *)

Lemma toggleSubtask_tcd_found s patientId ti si tasks task subtask :
  taskCompletionData s !! patientId = Some tasks ->
  tasks !! ti = Some task ->
  t_subtasks task !! si = Some subtask ->
  taskCompletionData (finalState (toggleSubtask patientId ti si s))
  = <[patientId := <[ti := toggledSubtask si subtask task]> tasks]> (taskCompletionData s).
Proof.
  intros H1 H2 H3.
  now rewrite (toggleSubtask_found _ _ _ _ _ _ _ H1 H2 H3), refreshAndSave_tcd,
    (written_tcd _ _ _ _ _ H1).
Qed.

Lemma toggleSubSubtask_tcd_found s patientId ti si ssi tasks task subtask leaves leaf :
  taskCompletionData s !! patientId = Some tasks ->
  tasks !! ti = Some task ->
  t_subtasks task !! si = Some subtask ->
  st_subSubtasks subtask = Some leaves ->
  leaves !! ssi = Some leaf ->
  taskCompletionData (finalState (toggleSubSubtask patientId ti si ssi s))
  = <[patientId := <[ti := writtenLeaf si ssi (setLeafComplete (negb (ss_complete leaf)) leaf)
                            leaves subtask task]> tasks]> (taskCompletionData s).
Proof.
  intros H1 H2 H3 H4 H5.
  now rewrite (toggleSubSubtask_found _ _ _ _ _ _ _ _ _ _ H1 H2 H3 H4 H5), refreshAndSave_tcd,
    (written_tcd _ _ _ _ _ H1).
Qed.

Lemma updateSubSubtaskInput_tcd_found s patientId ti si ssi value tasks task subtask leaves leaf :
  taskCompletionData s !! patientId = Some tasks ->
  tasks !! ti = Some task ->
  t_subtasks task !! si = Some subtask ->
  st_subSubtasks subtask = Some leaves ->
  leaves !! ssi = Some leaf ->
  taskCompletionData (finalState (updateSubSubtaskInput patientId ti si ssi value s))
  = <[patientId := <[ti := writtenLeaf si ssi (typedLeaf value leaf) leaves subtask task]> tasks]>
      (taskCompletionData s).
Proof.
  intros H1 H2 H3 H4 H5.
  now rewrite (updateSubSubtaskInput_found _ _ _ _ _ value _ _ _ _ _ H1 H2 H3 H4 H5),
    refreshAndSave_tcd, (written_tcd _ _ _ _ _ H1).
Qed.

Lemma setSubtasks_same task : setSubtasks (t_subtasks task) task = task.
Proof. now destruct task. Qed.

Lemma toggledSubtask_twice si subtask task :
  t_subtasks task !! si = Some subtask ->
  toggledSubtask si (setSubtaskComplete (negb (st_complete subtask)) subtask)
                 (toggledSubtask si subtask task)
  = task.
Proof.
  intros H. unfold toggledSubtask. cbn [t_subtasks setSubtasks st_complete setSubtaskComplete].
  rewrite list_insert_insert_eq, negb_involutive.
  replace (setSubtaskComplete (st_complete subtask)
             (setSubtaskComplete (negb (st_complete subtask)) subtask)) with subtask
    by now destruct subtask.
  rewrite list_insert_id by assumption. now destruct task.
Qed.

(** X12. [toggleSubtask] is its own inverse on the task map: toggling
    the same subtask twice gives back the map as it was, and with it the
    progress of every patient. *)
Theorem X12_toggleSubtask_twice (s : State) (patientId : string) (ti si : nat)
    (subtask : Subtask) :
  subtaskAt s patientId ti si = Some subtask ->
  let s1 := finalState (toggleSubtask patientId ti si s) in
  let s2 := finalState (toggleSubtask patientId ti si s1) in
  subtaskAt s1 patientId ti si = Some (setSubtaskComplete (negb (st_complete subtask)) subtask)
  /\ taskCompletionData s2 = taskCompletionData s
  /\ (forall q, calculateProgress (taskCompletionData s2) q
                = calculateProgress (taskCompletionData s) q).
Proof.
  intros H s1 s2. apply subtaskAt_Some in H as (tasks & task & H1 & H2 & H3).
  pose proof (lookup_lt_Some _ _ _ H2) as Hti. pose proof (lookup_lt_Some _ _ _ H3) as Hsi.
  assert (E1 : taskCompletionData s1
               = <[patientId := <[ti := toggledSubtask si subtask task]> tasks]>
                   (taskCompletionData s)) by now apply toggleSubtask_tcd_found.
  assert (L1 : taskCompletionData s1 !! patientId
               = Some (<[ti := toggledSubtask si subtask task]> tasks))
    by (rewrite E1; apply lookup_insert_eq).
  assert (L2 : <[ti := toggledSubtask si subtask task]> tasks !! ti
               = Some (toggledSubtask si subtask task))
    by now apply list_lookup_insert_eq.
  assert (L3 : t_subtasks (toggledSubtask si subtask task) !! si
               = Some (setSubtaskComplete (negb (st_complete subtask)) subtask))
    by (unfold toggledSubtask; cbn; now apply list_lookup_insert_eq).
  assert (E2 : taskCompletionData s2 = taskCompletionData s).
  { subst s2. rewrite (toggleSubtask_tcd_found _ _ _ _ _ _ _ L1 L2 L3).
    rewrite toggledSubtask_twice by assumption.
    rewrite list_insert_insert_eq, list_insert_id by assumption.
    rewrite E1, insert_insert_eq. now apply insert_id. }
  split; [|split; [exact E2 | intros q; now rewrite E2]].
  unfold subtaskAt. now rewrite L1, L2.
Qed.

Lemma X12_toggleSubtask_twice_witness :
  taskCompletionData
    (finalState (toggleSubtask "p1" 1 0 (finalState (toggleSubtask "p1" 1 0 paidState))))
  = taskCompletionData paidState.
Proof.
  refine (proj1 (proj2 (X12_toggleSubtask_twice paidState "p1" 1 0
                          (mkSubtask "Sent Invoice" true None None) _))).
  vm_compute. reflexivity.
Defined.

Lemma withLeaves_twice leaves leaves' subtask :
  withLeaves leaves (withLeaves leaves' subtask) = withLeaves leaves subtask.
Proof. reflexivity. Qed.

Lemma writtenLeaf_twice si ssi leafA leafB leaves subtask task :
  t_subtasks task !! si = Some subtask ->
  writtenLeaf si ssi leafB (<[ssi := leafA]> leaves)
              (withLeaves (<[ssi := leafA]> leaves) subtask)
              (writtenLeaf si ssi leafA leaves subtask task)
  = writtenLeaf si ssi leafB leaves subtask task.
Proof.
  intros H. unfold writtenLeaf. cbn [t_subtasks setSubtasks].
  now rewrite !list_insert_insert_eq, withLeaves_twice.
Qed.

(** The map after two writes of a leaf at the same place. *)
Lemma two_leaf_writes (m : gmap string (list Task)) patientId ti si ssi
    tasks task subtask leaves leafA leafB :
  tasks !! ti = Some task ->
  t_subtasks task !! si = Some subtask ->
  <[patientId := <[ti := writtenLeaf si ssi leafB (<[ssi := leafA]> leaves)
                            (withLeaves (<[ssi := leafA]> leaves) subtask)
                            (writtenLeaf si ssi leafA leaves subtask task)]>
                   (<[ti := writtenLeaf si ssi leafA leaves subtask task]> tasks)]>
    (<[patientId := <[ti := writtenLeaf si ssi leafA leaves subtask task]> tasks]> m)
  = <[patientId := <[ti := writtenLeaf si ssi leafB leaves subtask task]> tasks]> m.
Proof.
  intros H2 H3. now rewrite writtenLeaf_twice, list_insert_insert_eq, insert_insert_eq.
Qed.

(** The look-ups that succeed after a leaf was written. *)
Lemma lookups_after_leaf_write (s1 : State) (m : gmap string (list Task)) patientId ti si ssi
    tasks task subtask leaves leaf leafA :
  tasks !! ti = Some task ->
  t_subtasks task !! si = Some subtask ->
  leaves !! ssi = Some leaf ->
  taskCompletionData s1
  = <[patientId := <[ti := writtenLeaf si ssi leafA leaves subtask task]> tasks]> m ->
  taskCompletionData s1 !! patientId
  = Some (<[ti := writtenLeaf si ssi leafA leaves subtask task]> tasks)
  /\ <[ti := writtenLeaf si ssi leafA leaves subtask task]> tasks !! ti
     = Some (writtenLeaf si ssi leafA leaves subtask task)
  /\ t_subtasks (writtenLeaf si ssi leafA leaves subtask task) !! si
     = Some (withLeaves (<[ssi := leafA]> leaves) subtask)
  /\ st_subSubtasks (withLeaves (<[ssi := leafA]> leaves) subtask)
     = Some (<[ssi := leafA]> leaves)
  /\ <[ssi := leafA]> leaves !! ssi = Some leafA.
Proof.
  intros H2 H3 H5 E.
  pose proof (lookup_lt_Some _ _ _ H2). pose proof (lookup_lt_Some _ _ _ H3).
  pose proof (lookup_lt_Some _ _ _ H5).
  repeat split.
  - rewrite E. apply lookup_insert_eq.
  - now apply list_lookup_insert_eq.
  - unfold writtenLeaf. cbn. now apply list_lookup_insert_eq.
  - now apply list_lookup_insert_eq.
Qed.

(** X13. Toggling the same leaf twice with [toggleSubSubtask] gives back
    every leaf as it was, and leaves the flag of the subtask equal to the
    conjunction of its leaves; so the task map is exactly as before when
    that flag agreed with the leaves, and differs in that flag only when
    [toggleSubtask] had set it apart. *)
Theorem X13_toggleSubSubtask_twice (s : State) (patientId : string) (ti si ssi : nat)
    (tasks : list Task) (task : Task) (subtask : Subtask)
    (leaves : list SubSubtask) (leaf : SubSubtask) :
  taskCompletionData s !! patientId = Some tasks ->
  tasks !! ti = Some task ->
  t_subtasks task !! si = Some subtask ->
  st_subSubtasks subtask = Some leaves ->
  leaves !! ssi = Some leaf ->
  let s1 := finalState (toggleSubSubtask patientId ti si ssi s) in
  let s2 := finalState (toggleSubSubtask patientId ti si ssi s1) in
  taskCompletionData s2
  = <[patientId := <[ti := setSubtasks
                            (<[si := setSubtaskComplete (forallb ss_complete leaves) subtask]>
                               (t_subtasks task)) task]> tasks]> (taskCompletionData s)
  /\ (st_complete subtask = forallb ss_complete leaves ->
      taskCompletionData s2 = taskCompletionData s).
Proof.
  intros H1 H2 H3 H4 H5 s1 s2.
  set (leafA := setLeafComplete (negb (ss_complete leaf)) leaf).
  assert (E1 : taskCompletionData s1
               = <[patientId := <[ti := writtenLeaf si ssi leafA leaves subtask task]> tasks]>
                   (taskCompletionData s)) by now apply toggleSubSubtask_tcd_found.
  destruct (lookups_after_leaf_write s1 _ _ _ _ _ _ _ _ _ leaf leafA H2 H3 H5 E1)
    as (L1 & L2 & L3 & L4 & L5).
  assert (Eb : setLeafComplete (negb (ss_complete leafA)) leafA = leaf).
  { subst leafA. destruct leaf as [n t v c]. cbn. now rewrite negb_involutive. }
  assert (E2 : taskCompletionData s2
               = <[patientId := <[ti := setSubtasks
                            (<[si := setSubtaskComplete (forallb ss_complete leaves) subtask]>
                               (t_subtasks task)) task]> tasks]> (taskCompletionData s)).
  { subst s2. rewrite (toggleSubSubtask_tcd_found _ _ _ _ _ _ _ _ _ _ L1 L2 L3 L4 L5).
    rewrite Eb, E1, two_leaf_writes by assumption.
    unfold writtenLeaf, withLeaves. rewrite (list_insert_id leaves ssi leaf) by assumption.
    rewrite completed_all_forallb.
    replace (setSubSubtasks leaves subtask) with subtask
      by (destruct subtask; cbn in *; now subst).
    reflexivity. }
  split; [exact E2|]. intros Hc. rewrite E2, <- Hc.
  replace (setSubtaskComplete (st_complete subtask) subtask) with subtask
    by now destruct subtask.
  rewrite (list_insert_id (t_subtasks task) si subtask) by assumption.
  rewrite setSubtasks_same.
  rewrite (list_insert_id tasks ti task) by assumption. now apply insert_id.
Qed.

Lemma X13_toggleSubSubtask_twice_witness :
  taskCompletionData
    (finalState (toggleSubSubtask "p1" 1 1 1 (finalState (toggleSubSubtask "p1" 1 1 1 paidState))))
  = taskCompletionData paidState.
Proof.
  refine (proj2 (X13_toggleSubSubtask_twice paidState "p1" 1 1 1 _ _ _ _ _ _ _ _ _ _) _).
  - vm_compute. reflexivity.
  - reflexivity.
  - reflexivity.
  - reflexivity.
  - reflexivity.
  - reflexivity.
Defined.

(** X14. [updateSubSubtaskInput] is idempotent on the task map: a second
    call with the same text, as the page makes when [onchange] and
    [onblur] both fire, changes nothing more. *)
Theorem X14_updateSubSubtaskInput_idempotent (s : State) (patientId : string)
    (ti si ssi : nat) (value : string) (leaf : SubSubtask) :
  leafAt s patientId ti si ssi = Some leaf ->
  let s1 := finalState (updateSubSubtaskInput patientId ti si ssi value s) in
  let s2 := finalState (updateSubSubtaskInput patientId ti si ssi value s1) in
  taskCompletionData s2 = taskCompletionData s1.
Proof.
  intros H s1 s2.
  apply leafAt_Some in H as (tasks & task & subtask & leaves & H1 & H2 & H3 & H4 & H5).
  assert (E1 : taskCompletionData s1
               = <[patientId := <[ti := writtenLeaf si ssi (typedLeaf value leaf)
                                          leaves subtask task]> tasks]>
                   (taskCompletionData s)) by now apply updateSubSubtaskInput_tcd_found.
  destruct (lookups_after_leaf_write s1 _ _ _ _ _ _ _ _ _ leaf (typedLeaf value leaf) H2 H3 H5 E1)
    as (L1 & L2 & L3 & L4 & L5).
  subst s2. rewrite (updateSubSubtaskInput_tcd_found _ _ _ _ _ value _ _ _ _ _ L1 L2 L3 L4 L5).
  rewrite E1 at 1. rewrite two_leaf_writes by assumption. now rewrite E1.
Qed.

Lemma X14_updateSubSubtaskInput_idempotent_witness :
  taskCompletionData
    (finalState (updateSubSubtaskInput "p1" 2 0 0 "Dr. Who"
       (finalState (updateSubSubtaskInput "p1" 2 0 0 "Dr. Who" viewedState))))
  = taskCompletionData (finalState (updateSubSubtaskInput "p1" 2 0 0 "Dr. Who" viewedState)).
Proof.
  refine (X14_updateSubSubtaskInput_idempotent viewedState "p1" 2 0 0 "Dr. Who"
            (textInput "Hospice/Doctor Name") _).
  vm_compute. reflexivity.
Defined.

(** ** The filter of the timelines *)










(** ** The two ways to an id *)

Lemma toLowerCase_cons c n : JS.toLowerCase (String c n) <> "".
Proof. discriminate. Qed.

Lemma replaceSpaces_cons c n : exists d m, JS.replaceSpaces (String c n) = String d m.
Proof.
  unfold JS.replaceSpaces. cbn [JS.replaceSpacesFrom].
  destruct (JS.isWhiteSpace c); eauto.
Qed.

Lemma processed_name (patient : Patient) :
  JS.toLowerCase (JS.replaceSpaces (orElse (patient !! "Patient Name") "Unknown"))
  = orElse ((fun n => JS.toLowerCase (JS.replaceSpaces n)) <$> patient !! "Patient Name")
      "unknown".
Proof.
  destruct (patient !! "Patient Name") as [[|c n]|]; [reflexivity | | reflexivity].
  cbn [fmap option_fmap option_map orElse]. change (String.eqb (String c n) "") with false.
  cbv iota. destruct (replaceSpaces_cons c n) as (d & m & ->). reflexivity.
Qed.

Lemma string_app_inv_head (p a b : string) : p +:+ a = p +:+ b -> a = b.
Proof. induction p as [|c p IH]; cbn; [auto|]. intros H. injection H as H. auto. Qed.

(** X16. The id [loadPatientTimelines] gives the card of a record and
    the id the handlers compute for the same record are built alike,
    the index standing where the handlers put the clock.  So the two
    are equal exactly when the record has a non-empty id of its own, or
    the text of the index is the text of the clock. *)
Theorem X16_timeline_id_and_handler_id (patient : Patient) (index : nat) (now : string) :
  timelineId patient index = patientIdOf patient (pretty index)
  /\ (timelineId patient index = patientIdOf patient now
      <-> orElse (patient !! "id") "" <> "" \/ pretty index = now).
Proof.
  assert (E : timelineId patient index = patientIdOf patient (pretty index)).
  { unfold timelineId, patientIdOf. cbv zeta. now rewrite processed_name. }
  split; [exact E|]. rewrite E. unfold patientIdOf.
  set (name := orElse (_ <$> patient !! "Patient Name") "unknown").
  destruct (patient !! "id") as [[|c i]|]; cbn [orElse].
  - change (String.eqb "" "") with true. cbv iota. split.
    + intros H. right. apply string_app_inv_head in H. apply string_app_inv_head in H.
      now apply string_app_inv_head in H.
    + intros [H| ->]; [now destruct H | reflexivity].
  - change (String.eqb (String c i) "") with false. cbv iota.
    split; [intros _; left; discriminate | reflexivity].
  - split.
    + intros H. right. apply string_app_inv_head in H. apply string_app_inv_head in H.
      now apply string_app_inv_head in H.
    + intros [H| ->]; [now destruct H | reflexivity].
Qed.

(** ** The data cache *)

(** X17. What [setCachedData] stores under a key, [getCachedData]
    returns for that key as long as the clock is less than 30000 ms
    past the clock of the store, and null from then on; the other keys
    are read as before, and after [clearCache] every key reads null. *)
Theorem X17_cache_round_trip {D : Type} (dataCache : gmap string (Cached D))
    (stored now : Z) (key other : string) (data : D) :
  getCachedData (setCachedData dataCache stored key data) now key
  = (if (now <? stored + 30000)%Z then Some data else None)
  /\ (other <> key ->
      getCachedData (setCachedData dataCache stored key data) now other
      = getCachedData dataCache now other)
  /\ getCachedData (clearCache (setCachedData dataCache stored key data)) now other = None.
Proof.
  unfold getCachedData, setCachedData, clearCache, CACHE_DURATION. split; [|split].
  - rewrite lookup_insert_eq. cbn.
    destruct (Z.ltb_spec (now - stored) 30000), (Z.ltb_spec now (stored + 30000));
      reflexivity || lia.
  - intros H. now rewrite lookup_insert_ne by congruence.
  - now rewrite lookup_empty.
Qed.

Lemma X17_cache_round_trip_witness :
  getCachedData (setCachedData (∅ : gmap string (Cached nat)) 1000 "a" 7%nat) 30999 "a"
  = Some 7%nat
  /\ getCachedData (setCachedData (∅ : gmap string (Cached nat)) 1000 "a" 7%nat) 31000 "a"
     = None
  /\ getCachedData (setCachedData (∅ : gmap string (Cached nat)) 1000 "a" 7%nat) 30999 "b"
     = None.
Proof.
  pose proof (X17_cache_round_trip (∅ : gmap string (Cached nat)) 1000 30999 "a" "b" 7%nat)
    as (H1 & H2 & _).
  pose proof (X17_cache_round_trip (∅ : gmap string (Cached nat)) 1000 31000 "a" "b" 7%nat)
    as (H3 & _).
  split; [exact H1|]. split; [exact H3|].
  rewrite H2 by discriminate. reflexivity.
Defined.

(** ** The migration of the old keys *)

Lemma migrateOne_keeps index (patient : Patient) m b m1 b1 :
  migrateOne index patient (m, b) = (m1, b1) ->
  size m1 = size m
  /\ (forall t, (exists k, m !! k = Some t) <-> (exists k, m1 !! k = Some t))
  /\ (forall k t, k <> oldPatientId index -> m !! k = Some t -> m1 !! k = Some t)
  /\ (b1 = false -> m1 = m /\ b = false).
Proof.
  unfold migrateOne. set (new := orElse (patient !! "id") "").
  destruct (m !! oldPatientId index) as [tasks|] eqn:Eold;
    [|intros [= <- <-]; repeat split; auto; tauto].
  destruct (String.eqb new ""); [intros [= <- <-]; repeat split; auto; tauto|].
  destruct (m !! new) eqn:Enew; [intros [= <- <-]; repeat split; auto; tauto|].
  intros [= <- <-].
  assert (Hne : new <> oldPatientId index) by congruence.
  split; [|split; [|split]].
  - rewrite map_size_delete_Some
      by (rewrite lookup_insert_ne by assumption; rewrite Eold; eauto).
    rewrite map_size_insert_None by assumption. reflexivity.
  - intros t. split; intros [k Hk].
    + destruct (decide (k = oldPatientId index)) as [->|Hk'].
      * exists new. rewrite lookup_delete_ne by congruence. rewrite lookup_insert_eq.
        congruence.
      * exists k. rewrite lookup_delete_ne, lookup_insert_ne by congruence. exact Hk.
    + destruct (decide (k = oldPatientId index)) as [->|Hk'];
        [rewrite lookup_delete_eq in Hk; discriminate|].
      rewrite lookup_delete_ne in Hk by congruence.
      destruct (decide (k = new)) as [->|Hk''].
      * rewrite lookup_insert_eq in Hk. exists (oldPatientId index). congruence.
      * rewrite lookup_insert_ne in Hk by congruence. eauto.
  - intros k t Hk Hm. rewrite lookup_delete_ne, lookup_insert_ne by congruence. exact Hm.
  - discriminate.
Qed.

Lemma migrateFrom_keeps patients : forall index m b m' b',
  migrateFrom index patients (m, b) = (m', b') ->
  size m' = size m
  /\ (forall t, (exists k, m !! k = Some t) <-> (exists k, m' !! k = Some t))
  /\ (forall k t,
        (forall i, (index <= i < index + length patients)%nat -> k <> oldPatientId i) ->
        m !! k = Some t -> m' !! k = Some t)
  /\ (b' = false -> m' = m /\ b = false).
Proof.
  induction patients as [|patient rest IH]; intros index m b m' b'.
  - cbn. intros [= <- <-]. repeat split; auto; tauto.
  - cbn [migrateFrom]. destruct (migrateOne index patient (m, b)) as [m1 b1] eqn:E1.
    intros E. apply migrateOne_keeps in E1 as (S1 & T1 & K1 & B1).
    apply IH in E as (S2 & T2 & K2 & B2).
    split; [congruence|]. split; [|split].
    + intros t. rewrite T1. apply T2.
    + intros k t Hk Hm. apply K2.
      * intros i Hi. apply Hk. cbn [length]. lia.
      * apply K1; [apply Hk; cbn [length]; lia | exact Hm].
    + intros Hb. destruct (B2 Hb) as [-> Hb1]. exact (B1 Hb1).
Qed.

(** X18. [migrateTaskCompletionData] never throws and moves trees
    without losing or copying one: the records stay as they are, the
    window map keeps its number of entries and stores the same trees,
    an entry whose key is not 'patient-i' for the index i of an active
    record stays under its key, and either nothing has changed or the
    new map has been saved. *)
Theorem X18_migration_moves_trees (s : State) :
  exists s',
    migrateTaskCompletionData s = Returned tt s'
    /\ activePatients s' = activePatients s
    /\ archivedPatients s' = archivedPatients s
    /\ size (taskCompletionData s') = size (taskCompletionData s)
    /\ (forall tasks,
          (exists k, taskCompletionData s !! k = Some tasks)
          <-> (exists k, taskCompletionData s' !! k = Some tasks))
    /\ (forall k tasks,
          (forall i, (i < length (activePatients s))%nat -> k <> oldPatientId i) ->
          taskCompletionData s !! k = Some tasks ->
          taskCompletionData s' !! k = Some tasks)
    /\ (s' = s \/ savedTaskCompletionData s' = taskCompletionData s').
Proof.
  unfold migrateTaskCompletionData. unfold_eff.
  destruct (migrateFrom 0 (activePatients s) (taskCompletionData s, false)) as [m' b'] eqn:E.
  apply migrateFrom_keeps in E as (S1 & T1 & K1 & B1).
  destruct b'; cbn.
  - eexists. split; [reflexivity|]. cbn. repeat split; auto; try apply T1.
    intros k tasks Hk. apply K1. intros i Hi. apply Hk. lia.
  - destruct (B1 eq_refl) as [-> _].
    eexists. split; [reflexivity|]. cbn. repeat split; auto; try apply T1.
    left. now destruct s.
Qed.

Lemma X18_migration_moves_trees_witness :
  exists s',
    migrateTaskCompletionData oldKeyState = Returned tt s'
    /\ size (taskCompletionData s') = 1%nat
    /\ taskCompletionData s' !! "p1" = Some initializePatientTasks
    /\ taskCompletionData s' !! "patient-0" = None.
Proof.
  destruct (X18_migration_moves_trees oldKeyState) as (s' & E & _ & _ & Hsize & _).
  exists s'. split; [exact E|]. split; [rewrite Hsize; vm_compute; reflexivity|].
  assert (E' : s' = finalState (migrateTaskCompletionData oldKeyState)) by now rewrite E.
  rewrite E'. split; vm_compute; reflexivity.
Defined.

(** ** The statistics of the timelines *)

Lemma progress_range (s : State) (patientId : string) :
  wellShaped s -> 0 <= calculateProgress (taskCompletionData s) patientId <= 100.
Proof.
  intros Hs. unfold calculateProgress.
  destruct (taskCompletionData s !! patientId) as [tasks|] eqn:E; [|lia].
  destruct (shaped_counts tasks (Hs _ _ E)) as (c & Hc & Hle).
  rewrite Hc. now apply percentage_23.
Qed.

Lemma countFrom_const (test : Z -> bool) (b : bool) m (data : list Patient) : forall index,
  (forall i p, data !! i = Some p ->
               test (calculateProgress m (timelineId p (index + i))) = b) ->
  countFrom test m index data = if b then length data else 0%nat.
Proof.
  induction data as [|p rest IH]; intros index H; [now destruct b|].
  cbn [countFrom]. pose proof (H 0%nat p eq_refl) as H0. rewrite Nat.add_0_r in H0.
  rewrite H0, IH.
  - destruct b; reflexivity.
  - intros i q Hq. rewrite <- (H (S i) q Hq). do 3 f_equal. lia.
Qed.

(** X19. In a reachable state the numbers the timelines show under
    'Incomplete' and 'Complete' add up to the number of records; a record
    counts as complete exactly when a tree is stored under the id of its
    card and every item of it is complete, so without such a tree all
    records count as incomplete. *)
Theorem X19_timeline_statistics (s : State) (data : list Patient) :
  reachable s ->
  (incompleteCount (taskCompletionData s) data + completeCount (taskCompletionData s) data
   = length data)%nat
  /\ ((forall i p tasks,
         data !! i = Some p ->
         taskCompletionData s !! timelineId p i = Some tasks -> ~ allComplete tasks) ->
      completeCount (taskCompletionData s) data = 0%nat)
  /\ ((forall i p,
         data !! i = Some p ->
         exists tasks,
           taskCompletionData s !! timelineId p i = Some tasks /\ allComplete tasks) ->
      completeCount (taskCompletionData s) data = length data).
Proof.
  intros Hs. apply reachableBy_wellShaped in Hs. split; [|split].
  - unfold incompleteCount, completeCount. generalize 0%nat.
    induction data as [|p rest IH]; intros index; [reflexivity|].
    cbn [countFrom length]. specialize (IH (S index)).
    pose proof (progress_range s (timelineId p index) Hs) as Hr.
    destruct (Z.ltb_spec (calculateProgress (taskCompletionData s) (timelineId p index)) 100),
             (Z.eqb_spec (calculateProgress (taskCompletionData s) (timelineId p index)) 100);
      lia.
  - intros H. unfold completeCount.
    rewrite (countFrom_const _ false); [reflexivity|].
    intros i p Hp. cbn [Nat.add]. apply Z.eqb_neq. intros E.
    destruct (taskCompletionData s !! timelineId p i) as [tasks|] eqn:Em.
    + apply (H i p tasks Hp Em). now apply (progress_ends s _ tasks Hs Em).
    + unfold calculateProgress in E. rewrite Em in E. discriminate.
  - intros H. unfold completeCount.
    rewrite (countFrom_const _ true); [reflexivity|].
    intros i p Hp. cbn [Nat.add]. apply Z.eqb_eq.
    destruct (H i p Hp) as (tasks & Em & Hall).
    now apply (progress_ends s _ tasks Hs Em).
Qed.

Lemma X19_timeline_statistics_witness :
  incompleteCount (taskCompletionData twoPatients) [adam; bob] = 2%nat
  /\ completeCount (taskCompletionData markedState) [adam] = 1%nat.
Proof.
  assert (R : forall ops s0, reachable s0 -> reachable (runAll ops s0)).
  { intros ops s0 H0. apply runAll_reachable; [exact H0|].
    apply Forall_forall. intros; exact I. }
  split.
  - pose proof (X19_timeline_statistics twoPatients [adam; bob]) as H.
    destruct H as (Hsum & _ & _).
    + apply R. apply (reachable_env _ startState); [apply startState_reachable | reflexivity].
    + assert (E : completeCount (taskCompletionData twoPatients) [adam; bob] = 0%nat)
        by (vm_compute; reflexivity).
      rewrite E in Hsum. cbn [length] in Hsum. lia.
  - destruct (X19_timeline_statistics markedState [adam]) as (_ & _ & H).
    + apply R. apply startState_reachable.
    + apply H. intros [|i] p Hp; [|destruct i; discriminate].
      injection Hp as <-. exists (completeAll initializePatientTasks).
      split; vm_compute; reflexivity.
Defined.

(** ** The progress indicator of a card *)

(** X20. [generateProgressIndicator] counts at most eight of eight, and
    the width it gives the bar is 12.5 times the count rounded to the
    nearest integer, a half going up: the binary64 computation is exact
    here.  The bar is full exactly when all eight tests pass and empty
    exactly when none does. *)
Theorem X20_progress_indicator (patient : Patient) :
  let ind := generateProgressIndicator patient in
  ind_total ind = 8%nat
  /\ (ind_progress ind <= 8)%nat
  /\ ind_percentage ind = (25 * Z.of_nat (ind_progress ind) + 1) / 2
  /\ (ind_percentage ind = 100 <-> forallb id (indicators patient) = true)
  /\ (ind_percentage ind = 0 <-> existsb id (indicators patient) = false).
Proof.
  unfold generateProgressIndicator, indicators.
  generalize (fieldIs patient "CP Completed" "complete") as b1.
  generalize (fieldIs patient "RXNT Info" "complete") as b2.
  generalize (fieldIs patient "WR" "yes") as b3.
  generalize (fieldGiven patient "Prescription Submit") as b4.
  generalize (fieldIs patient "PAID" "yes") as b5.
  generalize (fieldIs patient "Check list" "complete") as b6.
  generalize (fieldIs patient "Consent Received" "yes") as b7.
  generalize (fieldIs patient "Medical Records" "yes") as b8.
  intros b8 b7 b6 b5 b4 b3 b2 b1.
  destruct b1, b2, b3, b4, b5, b6, b7, b8; vm_compute;
    (split; [reflexivity|]); (split; [lia|]); (split; [reflexivity|]);
    split; split; intros; (reflexivity || discriminate).
Qed.

(** ** The phone number of the intake form *)

Lemma filter_digits_all (l : list ascii) :
  Forall (fun c => isDigit c = true) l -> List.filter isDigit l = l.
Proof. induction 1 as [|c l Hc _ IH]; cbn; [reflexivity|]. now rewrite Hc, IH. Qed.

Lemma filter_digits_Forall (l : list ascii) :
  Forall (fun c => isDigit c = true) (List.filter isDigit l).
Proof.
  induction l as [|c l IH]; cbn; [constructor|].
  destruct (isDigit c) eqn:E; [constructor|]; assumption.
Qed.

Lemma slice_take (a b n : nat) (l : list ascii) :
  (b <= n)%nat -> slice a b (take n l) = slice a b l.
Proof.
  intros H. unfold slice. apply list_eq. intros i.
  rewrite !lookup_take, !lookup_drop, lookup_take.
  destruct (decide (i < b - a)%nat); [|reflexivity].
  destruct (decide (a + i < n)%nat); [reflexivity | lia].
Qed.

Lemma phoneOfDigits_digits (d : list ascii) :
  Forall (fun c => isDigit c = true) d ->
  List.filter isDigit (phoneOfDigits d) = take 10 d.
Proof.
  intros Hd. unfold phoneOfDigits, slice.
  change (3 - 0)%nat with 3%nat. change (6 - 3)%nat with 3%nat.
  change (10 - 6)%nat with 4%nat. change (drop 0 d) with d.
  assert (H3 : List.filter isDigit (take 3 d) = take 3 d)
    by (apply filter_digits_all, Forall_take, Hd).
  destruct (Nat.leb_spec 6 (length d)); [|destruct (Nat.leb_spec 3 (length d))].
  - rewrite !List.filter_app, H3.
    rewrite (filter_digits_all (take 3 (drop 3 d))) by apply Forall_take, Forall_drop, Hd.
    rewrite (filter_digits_all (take 4 (drop 6 d))) by apply Forall_take, Forall_drop, Hd.
    cbn [List.filter]. change (isDigit "("%char) with false.
    change (isDigit ")"%char) with false. change (isDigit " "%char) with false.
    change (isDigit "-"%char) with false. cbv iota. cbn [app].
    replace (drop 6 d) with (drop 3 (drop 3 d)) by now rewrite drop_drop.
    rewrite (take_take_drop (drop 3 d) 3 4). rewrite (take_take_drop d 3 (3 + 4)).
    reflexivity.
  - rewrite !List.filter_app, H3.
    rewrite (filter_digits_all (drop 3 d)) by apply Forall_drop, Hd.
    cbn [List.filter]. change (isDigit "("%char) with false.
    change (isDigit ")"%char) with false. change (isDigit " "%char) with false.
    cbv iota. cbn [app]. rewrite take_drop.
    symmetry. apply take_ge. lia.
  - rewrite filter_digits_all by exact Hd. symmetry. apply take_ge. lia.
Qed.

Lemma phoneOfDigits_take (d : list ascii) : phoneOfDigits (take 10 d) = phoneOfDigits d.
Proof.
  unfold phoneOfDigits. rewrite length_take.
  destruct (Nat.leb_spec 6 (length d)) as [H6|H6].
  - replace (6 <=? 10 `min` length d)%nat with true by (symmetry; apply Nat.leb_le; lia).
    now rewrite !slice_take by lia.
  - rewrite take_ge by lia.
    replace (6 <=? 10 `min` length d)%nat with false by (symmetry; apply Nat.leb_gt; lia).
    replace (10 `min` length d)%nat with (length d) by lia. reflexivity.
Qed.

Example formatPhoneNumber_at_work :
  formatPhoneNumber (list_ascii_of_string "555.123.45678 ext")
  = list_ascii_of_string "(555) 123-4567"
  /\ formatPhoneNumber (list_ascii_of_string "5551") = list_ascii_of_string "(555) 1"
  /\ formatPhoneNumber (list_ascii_of_string "55") = list_ascii_of_string "55".
Proof. repeat split; reflexivity. Qed.

(** X21. Of whatever is typed, [formatPhoneNumber] keeps the first ten
    digits, in their order, and nothing else but its own punctuation;
    the value it writes has at most 14 code units, and formatting it
    again changes nothing. *)
Theorem X21_formatPhoneNumber (input : list ascii) :
  List.filter isDigit (formatPhoneNumber input) = take 10 (List.filter isDigit input)
  /\ formatPhoneNumber (formatPhoneNumber input) = formatPhoneNumber input
  /\ (length (formatPhoneNumber input) <= 14)%nat.
Proof.
  change (formatPhoneNumber input) with (phoneOfDigits (List.filter isDigit input)).
  pose proof (filter_digits_Forall input) as Hd.
  set (d := List.filter isDigit input) in *.
  split; [now apply phoneOfDigits_digits|]. split.
  - change (formatPhoneNumber (phoneOfDigits d))
      with (phoneOfDigits (List.filter isDigit (phoneOfDigits d))).
    rewrite phoneOfDigits_digits by exact Hd. apply phoneOfDigits_take.
  - unfold phoneOfDigits, slice.
    destruct (Nat.leb_spec 6 (length d)); [|destruct (Nat.leb_spec 3 (length d))].
    + rewrite !length_app, !length_take. cbn [length]. lia.
    + rewrite !length_app, !length_take, !length_drop. cbn [length]. lia.
    + lia.
Qed.
